(** * Dhaka Monopoly: session gateway, turn controller and board topology

    A shallow embedding of the two JavaScript sources of the project,

      - [server/index.js]: the Express gateway in front of the Python
        rules engine, with its optional MongoDB mirror;
      - [client/src/App.js]: the React turn controller and the board
        coordinate mapping;

    followed by the properties proved about them. *)

From Stdlib Require Import ZArith List String Ascii Bool Lia.
From Stdlib Require Import Permutation Sorted DecimalString.
Import ListNotations.

Set Warnings "-register-all".

Local Open Scope string_scope.
Local Open Scope list_scope.
Local Open Scope Z_scope.

(* ================================================================== *)
(** ** JavaScript values *)
(* ================================================================== *)

Module Js.

(** JSON-like values as they travel between the engine, the gateway and
    the client.  Numbers that occur in the modelled code paths are
    integers (indices, prices, HTTP statuses, timestamps). *)
Inductive value : Type :=
| VUndefined
| VNull
| VBool (b : bool)
| VNum (n : Z)
| VStr (s : string)
| VArr (items : list value)
| VObj (fields : list (string * value)).

(** [if (v)], [!v], [a || b]. *)
Definition truthy (v : value) : bool :=
  match v with
  | VUndefined | VNull => false
  | VBool b => b
  | VNum n => negb (n =? 0)
  | VStr s => negb (String.eqb s "")
  | VArr _ | VObj _ => true
  end.

Definition or_else (a b : value) : value := if truthy a then a else b.

Definition nullish (v : value) : bool :=
  match v with
  | VUndefined | VNull => true
  | _ => false
  end.

Fixpoint assoc (k : string) (fs : list (string * value)) : value :=
  match fs with
  | [] => VUndefined
  | (k', v) :: rest => if String.eqb k k' then v else assoc k rest
  end.

(** [v.k] on a value that is not nullish: a missing property reads as
    [undefined]. *)
Definition field (v : value) (k : string) : value :=
  match v with
  | VObj fs => assoc k fs
  | _ => VUndefined
  end.

(** [v[i]] on a value that is not nullish. *)
Definition item (v : value) (i : nat) : value :=
  match v with
  | VArr xs => nth i xs VUndefined
  | _ => VUndefined
  end.

(** Removing a property from an object (a deselected field). *)
Fixpoint remove_key (k : string) (fs : list (string * value))
  : list (string * value) :=
  match fs with
  | [] => []
  | (k', v) :: rest =>
      if String.eqb k k' then remove_key k rest
      else (k', v) :: remove_key k rest
  end.

(** Overwriting a property, appending it when absent. *)
Fixpoint set_key (k : string) (v : value) (fs : list (string * value))
  : list (string * value) :=
  match fs with
  | [] => [(k, v)]
  | (k', v') :: rest =>
      if String.eqb k k' then (k, v) :: rest
      else (k', v') :: set_key k v rest
  end.

(** Template-literal rendering of a non-negative integer. *)
Definition show_nat (n : nat) : string :=
  NilZero.string_of_uint (Nat.to_uint n).

End Js.

(* ================================================================== *)
(** ** Board catalog: [GET /api/board] *)
(* ================================================================== *)

Module Board.

Record Color : Type := mkColor {
  name : string;
  basePrice : Z;
  baseFare : Z;
  hex : string
}.

Definition colors : list Color :=
  [ mkColor "Brown" 60 30 "#8B4513";
    mkColor "Light Blue" 80 40 "#87CEEB";
    mkColor "Pink" 100 50 "#FFB6C1";
    mkColor "Orange" 120 60 "#FFA500";
    mkColor "Red" 150 75 "#FF0000";
    mkColor "Yellow" 180 90 "#FFD700";
    mkColor "Green" 220 110 "#228B22";
    mkColor "Dark Blue" 280 140 "#00008B";
    mkColor "Purple" 320 160 "#800080" ].

Definition gamblePositions : list Z := [9; 19; 29; 39].

Inductive TileType : Type := property | gamble.

(** The two shapes of object pushed onto [board]. *)
Inductive Tile : Type :=
| GambleTile (index : Z) (name hex : string)
| PropertyTile (index : Z) (name color hex : string) (price fare : Z).

Definition tile_index (t : Tile) : Z :=
  match t with
  | GambleTile i _ _ => i
  | PropertyTile i _ _ _ _ _ => i
  end.

Definition tile_type (t : Tile) : TileType :=
  match t with
  | GambleTile _ _ _ => gamble
  | PropertyTile _ _ _ _ _ _ => property
  end.

Definition tile_color (t : Tile) : option string :=
  match t with
  | GambleTile _ _ _ => None
  | PropertyTile _ _ c _ _ _ => Some c
  end.

Definition tile_price (t : Tile) : option Z :=
  match t with
  | GambleTile _ _ _ => None
  | PropertyTile _ _ _ _ p _ => Some p
  end.

Definition tile_fare (t : Tile) : option Z :=
  match t with
  | GambleTile _ _ _ => None
  | PropertyTile _ _ _ _ _ f => Some f
  end.

Definition is_gamble (t : Tile) : bool :=
  match tile_type t with gamble => true | property => false end.

(** [gamblePositions.includes(i)] *)
Definition includes (xs : list Z) (i : Z) : bool :=
  existsb (Z.eqb i) xs.

(** [gamblePositions.indexOf(i)], [-1] when absent. *)
Fixpoint indexOf_from (xs : list Z) (i : Z) (at_ : Z) : Z :=
  match xs with
  | [] => -1
  | x :: rest => if x =? i then at_ else indexOf_from rest i (at_ + 1)
  end.

Definition indexOf (xs : list Z) (i : Z) : Z := indexOf_from xs i 0.

(** The variables the loop mutates. *)
Record LoopState : Type := mkLoop {
  board : list Tile;
  propertyIdx : Z
}.

(** One iteration of [for (let i = 0; i < 40; i++)].  [None] is the
    [TypeError] of reading [color.name] when [colors[colorIdx]] is
    [undefined]. *)
Definition loop_body (st : LoopState) (i : Z) : option LoopState :=
  if includes gamblePositions i then
    Some (mkLoop
            (board st ++
               [GambleTile i
                  ("Gamble Zone " ++
                     Js.show_nat (Z.to_nat (indexOf gamblePositions i + 1)))%string
                  "#FFD700"])
            (propertyIdx st))
  else
    let colorIdx := propertyIdx st / 4 in
    let posInColor := Z.rem (propertyIdx st) 4 in
    match nth_error colors (Z.to_nat colorIdx) with
    | None => None
    | Some color =>
        Some (mkLoop
                (board st ++
                   [PropertyTile i
                      (name color ++ " Property " ++
                         Js.show_nat (Z.to_nat (posInColor + 1)))%string
                      (name color)
                      (hex color)
                      (basePrice color + posInColor * 10)
                      (baseFare color + posInColor * 5)])
                (propertyIdx st + 1))
    end.

Fixpoint loop (idxs : list Z) (st : LoopState) : option LoopState :=
  match idxs with
  | [] => Some st
  | i :: rest =>
      match loop_body st i with
      | None => None
      | Some st' => loop rest st'
      end
  end.

(** The values [i] takes: 0, 1, ..., 39. *)
Definition indices : list Z := map Z.of_nat (seq 0 40).

(** The [board] array of the response body. *)
Definition generateBoard : option (list Tile) :=
  option_map board (loop indices (mkLoop [] 0)).

(** The property tiles of a board, in board order. *)
Definition properties (b : list Tile) : list Tile :=
  filter (fun t => negb (is_gamble t)) b.

End Board.

(* ================================================================== *)
(** ** Board layout: [getBoardPosition] *)
(* ================================================================== *)

Module Layout.

Record Pos : Type := mkPos { row : Z; col : Z }.

Definition getBoardPosition (index : Z) : Pos :=
  if index <=? 10 then mkPos 11 (11 - index)
  else if index <=? 19 then mkPos (11 - (index - 10)) 1
  else if index <=? 30 then mkPos 1 (index - 19)
  else mkPos (index - 29) 11.

(** The cells on the rim of the 11 x 11 CSS grid (lines numbered from 1). *)
Definition perimeter (p : Pos) : Prop :=
  1 <= row p <= 11 /\ 1 <= col p <= 11 /\
  (row p = 1 \/ row p = 11 \/ col p = 1 \/ col p = 11).

End Layout.

(* ================================================================== *)
(** ** axios *)
(* ================================================================== *)

Module Axios.
Import Js.

Inductive Method : Type := GET | POST | DELETE.

(** A call [axios.get(url)], [axios.post(url, body)], [axios.delete(url)]. *)
Record Request : Type := mkRequest {
  method : Method;
  url : string;
  payload : value
}.

Record AxiosResponse : Type := mkAxiosResponse {
  status : Z;
  data : value
}.

(** A rejected axios promise: [error.response] is set when the engine
    answered with a failing status and absent on a transport failure. *)
Record AxiosError : Type := mkAxiosError {
  response : option AxiosResponse;
  message : string
}.

Definition AxiosResult : Type := (AxiosResponse + AxiosError)%type.

End Axios.

(* ================================================================== *)
(** ** Session gateway: [server/index.js] *)
(* ================================================================== *)

Module Gateway.
Import Js Axios.

(** *** What the handlers talk to *)

Inductive Collection : Type := GameHistory | Tournament.

(** The Mongoose calls of the handlers. *)
Inductive DbOp : Type :=
| Create (c : Collection) (doc : value)
| FindOneAndUpdate (c : Collection) (filter update : value)
| DeleteOne (c : Collection) (filter : value)
| FindOne (c : Collection) (filter : value)
(** [find().sort({ [by]: -1 }).limit(n)], then [.select('-field')] *)
| FindSorted (c : Collection) (by_desc : string) (limit : nat)
    (deselect : option string).

(** A Mongoose promise resolves with a value or rejects with an error
    carrying a message. *)
Definition DbResult : Type := (value + string)%type.

(** What a [catch (e)] clause may receive. *)
Inductive Exn : Type :=
| AxiosFailure (e : AxiosError)
| TypeError (msg : string)
| DbFailure (msg : string).

Definition exn_message (e : Exn) : value :=
  match e with
  | AxiosFailure a => VStr (message a)
  | TypeError m => VStr m
  | DbFailure m => VStr m
  end.

(** [error.response] as a value; [undefined] on anything that is not an
    axios error with a response. *)
Definition exn_response (e : Exn) : value :=
  match e with
  | AxiosFailure a =>
      match response a with
      | Some r => VObj [("status", VNum (status r)); ("data", data r)]
      | None => VUndefined
      end
  | _ => VUndefined
  end.

(** Optional chaining [v?.k]. *)
Definition opt_field (v : value) (k : string) : value :=
  if nullish v then VUndefined else field v k.

(** [v === n] for a number literal [n]. *)
Definition is_num (v : value) (n : Z) : bool :=
  match v with
  | VNum m => m =? n
  | _ => false
  end.

(** *** Handler programs

    An [async] handler is a tree of the calls it awaits; [Throw] is a
    raised exception or a rejected promise. *)
Inductive Prog (A : Type) : Type :=
| Ret (a : A)
| Throw (e : Exn)
| Axios (r : Request) (k : AxiosResult -> Prog A)
| Mongo (op : DbOp) (k : DbResult -> Prog A)
| NewDate (k : Z -> Prog A)
| ConsoleLog (line : list value) (k : Prog A).

Arguments Ret {A} a.
Arguments Throw {A} e.
Arguments Axios {A} r k.
Arguments Mongo {A} op k.
Arguments NewDate {A} k.
Arguments ConsoleLog {A} line k.

Fixpoint bind {A B : Type} (p : Prog A) (f : A -> Prog B) : Prog B :=
  match p with
  | Ret a => f a
  | Throw e => Throw e
  | Axios r k => Axios r (fun x => bind (k x) f)
  | Mongo op k => Mongo op (fun x => bind (k x) f)
  | NewDate k => NewDate (fun x => bind (k x) f)
  | ConsoleLog l k => ConsoleLog l (bind k f)
  end.

(** [try { p } catch (e) { h(e) }] *)
Fixpoint try_catch {A : Type} (p : Prog A) (h : Exn -> Prog A) : Prog A :=
  match p with
  | Ret a => Ret a
  | Throw e => h e
  | Axios r k => Axios r (fun x => try_catch (k x) h)
  | Mongo op k => Mongo op (fun x => try_catch (k x) h)
  | NewDate k => NewDate (fun x => try_catch (k x) h)
  | ConsoleLog l k => ConsoleLog l (try_catch k h)
  end.

Notation "x <- c1 ;; c2" := (bind c1 (fun x => c2))
  (at level 61, c1 at next level, right associativity).
Notation "c1 ;;; c2" := (bind c1 (fun _ => c2))
  (at level 61, right associativity).

(** [await axios.<method>(...)] *)
Definition await_axios (r : Request) : Prog AxiosResponse :=
  Axios r (fun res =>
    match res with
    | inl resp => Ret resp
    | inr e => Throw (AxiosFailure e)
    end).

(** [await Model.<op>(...)] *)
Definition await_db (op : DbOp) : Prog value :=
  Mongo op (fun res =>
    match res with
    | inl v => Ret v
    | inr m => Throw (DbFailure m)
    end).

Definition console_log (line : list value) : Prog unit :=
  ConsoleLog line (Ret tt).

Definition new_Date : Prog value := NewDate (fun t => Ret (VNum t)).

(** [v.k]: a [TypeError] on [undefined] and [null]. *)
Definition prop (v : value) (k : string) : Prog value :=
  match v with
  | VUndefined =>
      Throw (TypeError
        ("Cannot read properties of undefined (reading '" ++ k ++ "')")%string)
  | VNull =>
      Throw (TypeError
        ("Cannot read properties of null (reading '" ++ k ++ "')")%string)
  | _ => Ret (field v k)
  end.

(** [v[i]] *)
Definition index (v : value) (i : nat) : Prog value :=
  match v with
  | VUndefined =>
      Throw (TypeError
        ("Cannot read properties of undefined (reading '" ++ show_nat i ++ "')")%string)
  | VNull =>
      Throw (TypeError
        ("Cannot read properties of null (reading '" ++ show_nat i ++ "')")%string)
  | _ => Ret (item v i)
  end.

(** *** Express *)

Record ExpressRequest : Type := mkReq {
  params_gameId : string;
  body : value
}.

Record HttpResponse : Type := mkHttp {
  http_status : Z;
  http_body : value
}.

(** [res.json(b)] answers with the default status 200. *)
Definition res_json (b : value) : Prog HttpResponse := Ret (mkHttp 200 b).

(** [res.status(s).json(b)] *)
Definition res_status_json (s : Z) (b : value) : Prog HttpResponse :=
  Ret (mkHttp s b).

Section Handlers.

(** [process.env.PYTHON_API || 'http://localhost:5002'] *)
Variable PYTHON_API : string.

(** [POST /api/game/new] *)
Definition post_game_new (req : ExpressRequest) : Prog HttpResponse :=
  try_catch
    (response <- await_axios
       (mkRequest POST (PYTHON_API ++ "/api/game/new")%string (body req)) ;;
     let gameData := data response in
     try_catch
       (gameId <- prop gameData "gameId" ;;
        agents0 <- prop gameData "agents" ;;
        agent1 <- index agents0 0 ;;
        agents1 <- prop gameData "agents" ;;
        agent2 <- index agents1 1 ;;
        state <- prop gameData "state" ;;
        await_db (Create GameHistory
          (VObj [("gameId", gameId); ("agent1", agent1); ("agent2", agent2);
                 ("finalState", state); ("history", VArr [])])) ;;;
        Ret tt)
       (fun dbError =>
          console_log [VStr "Could not save to MongoDB:"; exn_message dbError]) ;;;
     res_json gameData)
    (fun error =>
       res_status_json 500
         (VObj [("error",
                 or_else
                   (opt_field (opt_field (exn_response error) "data") "error")
                   (VStr "Failed to create game"))])).

(** [POST /api/game/:gameId/turn] *)
Definition post_game_turn (req : ExpressRequest) : Prog HttpResponse :=
  try_catch
    (response <- await_axios
       (mkRequest POST
          (PYTHON_API ++ "/api/game/" ++ params_gameId req ++ "/turn")%string
          VUndefined) ;;
     let turnData := data response in
     gameOver <- prop turnData "gameOver" ;;
     (if truthy gameOver then
        try_catch
          (winner <- prop turnData "winner" ;;
           state0 <- prop turnData "state" ;;
           totalTurns <- prop state0 "turnCount" ;;
           finalState <- prop turnData "state" ;;
           completedAt <- new_Date ;;
           await_db (FindOneAndUpdate GameHistory
             (VObj [("gameId", VStr (params_gameId req))])
             (VObj [("winner", winner); ("totalTurns", totalTurns);
                    ("finalState", finalState);
                    ("completedAt", completedAt)])) ;;;
           Ret tt)
          (fun dbError =>
             console_log [VStr "Could not update MongoDB:"; exn_message dbError])
      else Ret tt) ;;;
     res_json turnData)
    (fun error =>
       if is_num (opt_field (exn_response error) "status") 404 then
         res_status_json 404 (VObj [("error", VStr "Game not found")])
       else
         res_status_json 500 (VObj [("error", VStr "Failed to play turn")])).

(** [POST /api/game/:gameId/play] *)
Definition post_game_play (req : ExpressRequest) : Prog HttpResponse :=
  try_catch
    (response <- await_axios
       (mkRequest POST
          (PYTHON_API ++ "/api/game/" ++ params_gameId req ++ "/play")%string
          VUndefined) ;;
     let gameData := data response in
     try_catch
       (winner <- prop gameData "winner" ;;
        totalTurns <- prop gameData "totalTurns" ;;
        finalState <- prop gameData "state" ;;
        history <- prop gameData "history" ;;
        completedAt <- new_Date ;;
        await_db (FindOneAndUpdate GameHistory
          (VObj [("gameId", VStr (params_gameId req))])
          (VObj [("winner", winner); ("totalTurns", totalTurns);
                 ("finalState", finalState); ("history", history);
                 ("completedAt", completedAt)])) ;;;
        Ret tt)
       (fun dbError =>
          console_log [VStr "Could not update MongoDB:"; exn_message dbError]) ;;;
     res_json gameData)
    (fun error =>
       res_status_json 500 (VObj [("error", VStr "Failed to play full game")])).

(** [POST /api/game/:gameId/fast-forward] *)
Definition post_game_fast_forward (req : ExpressRequest) : Prog HttpResponse :=
  try_catch
    (response <- await_axios
       (mkRequest POST
          (PYTHON_API ++ "/api/game/" ++ params_gameId req ++ "/fast-forward")%string
          (body req)) ;;
     res_json (data response))
    (fun error =>
       res_status_json 500 (VObj [("error", VStr "Failed to fast forward")])).

(** [DELETE /api/game/:gameId] *)
Definition delete_game (req : ExpressRequest) : Prog HttpResponse :=
  try_catch
    (await_axios
       (mkRequest DELETE
          (PYTHON_API ++ "/api/game/" ++ params_gameId req)%string
          VUndefined) ;;;
     try_catch
       (await_db (DeleteOne GameHistory
          (VObj [("gameId", VStr (params_gameId req))])) ;;;
        Ret tt)
       (fun dbError =>
          console_log [VStr "Could not delete from MongoDB:";
                       exn_message dbError]) ;;;
     res_json (VObj [("message", VStr "Game deleted")]))
    (fun error =>
       res_status_json 500 (VObj [("error", VStr "Failed to delete game")])).

(** [POST /api/simulate] *)
Definition post_simulate (req : ExpressRequest) : Prog HttpResponse :=
  try_catch
    (response <- await_axios
       (mkRequest POST (PYTHON_API ++ "/api/simulate")%string (body req)) ;;
     let results := data response in
     try_catch
       (agent1 <- prop results "agent1" ;;
        agent2 <- prop results "agent2" ;;
        totalGames <- prop results "totalGames" ;;
        await_db (Create Tournament
          (VObj [("agent1", agent1); ("agent2", agent2);
                 ("totalGames", totalGames); ("results", results)])) ;;;
        Ret tt)
       (fun dbError =>
          console_log [VStr "Could not save tournament to MongoDB:";
                       exn_message dbError]) ;;;
     res_json results)
    (fun error =>
       res_status_json 500 (VObj [("error", VStr "Failed to run simulation")])).

(** [GET /api/history] *)
Definition get_history (req : ExpressRequest) : Prog HttpResponse :=
  try_catch
    (games <- await_db (FindSorted GameHistory "createdAt" 50 (Some "history")) ;;
     res_json (VObj [("games", games)]))
    (fun error =>
       res_json (VObj [("games", VArr []);
                       ("error", VStr "Database not available")])).

(** [GET /api/health] *)
Definition get_health (req : ExpressRequest) : Prog HttpResponse :=
  try_catch
    (pythonHealth <- await_axios
       (mkRequest GET (PYTHON_API ++ "/api/health")%string VUndefined) ;;
     res_json
       (VObj [("status", VStr "healthy");
              ("service", VStr "AI Monopoly Node.js Backend");
              ("pythonBackend", data pythonHealth)]))
    (fun error =>
       res_json
         (VObj [("status", VStr "healthy");
                ("service", VStr "AI Monopoly Node.js Backend");
                ("pythonBackend", VObj [("status", VStr "unavailable")])])).

(** [GET /api/agents] *)
Definition get_agents (req : ExpressRequest) : Prog HttpResponse :=
  try_catch
    (response <- await_axios
       (mkRequest GET (PYTHON_API ++ "/api/agents")%string VUndefined) ;;
     res_json (data response))
    (fun error =>
       res_status_json 500
         (VObj [("error", VStr "Failed to fetch agents from Python backend")])).

(** [GET /api/game/:gameId/state] *)
Definition get_game_state (req : ExpressRequest) : Prog HttpResponse :=
  try_catch
    (response <- await_axios
       (mkRequest GET
          (PYTHON_API ++ "/api/game/" ++ params_gameId req ++ "/state")%string
          VUndefined) ;;
     res_json (data response))
    (fun error =>
       if is_num (opt_field (exn_response error) "status") 404 then
         res_status_json 404 (VObj [("error", VStr "Game not found")])
       else
         res_status_json 500 (VObj [("error", VStr "Failed to fetch game state")])).

(** [GET /api/history/:gameId] *)
Definition get_history_game (req : ExpressRequest) : Prog HttpResponse :=
  try_catch
    (game <- await_db
       (FindOne GameHistory (VObj [("gameId", VStr (params_gameId req))])) ;;
     if negb (truthy game) then
       res_status_json 404 (VObj [("error", VStr "Game not found in history")])
     else res_json game)
    (fun error =>
       res_status_json 500 (VObj [("error", VStr "Failed to fetch game history")])).

(** [GET /api/tournaments] *)
Definition get_tournaments (req : ExpressRequest) : Prog HttpResponse :=
  try_catch
    (tournaments <- await_db (FindSorted Tournament "createdAt" 20 None) ;;
     res_json (VObj [("tournaments", tournaments)]))
    (fun error =>
       res_json (VObj [("tournaments", VArr []);
                       ("error", VStr "Database not available")])).

End Handlers.

(** *** Running a handler

    The engine is an oracle answering each request; the history store
    is any state machine answering each Mongoose call, at the time of
    the call, with a result or an error. *)
Section Run.

Variable Store : Type.
Variable engine : Request -> AxiosResult.
Variable db : Z -> DbOp -> Store -> DbResult * Store.

Record World : Type := mkWorld {
  store : Store;
  clock : Z;
  console : list (list value);
  sent : list Request;
  db_calls : list DbOp
}.

Fixpoint run {A : Type} (p : Prog A) (w : World) : (Exn + A) * World :=
  match p with
  | Ret a => (inr a, w)
  | Throw e => (inl e, w)
  | Axios r k =>
      run (k (engine r))
        (mkWorld (store w) (clock w) (console w) (sent w ++ [r]) (db_calls w))
  | Mongo op k =>
      let (res, s') := db (clock w) op (store w) in
      run (k res)
        (mkWorld s' (clock w) (console w) (sent w) (db_calls w ++ [op]))
  | NewDate k => run (k (clock w)) w
  | ConsoleLog l k =>
      run k
        (mkWorld (store w) (clock w) (console w ++ [l]) (sent w) (db_calls w))
  end.

(** The HTTP answer of a handler, when it gives one. *)
Definition answer (p : Prog HttpResponse) (w : World) : option HttpResponse :=
  match fst (run p w) with
  | inr r => Some r
  | inl _ => None
  end.

Definition world_after (p : Prog HttpResponse) (w : World) : World :=
  snd (run p w).

End Run.

Arguments mkWorld {Store} _ _ _ _ _.
Arguments store {Store} _.
Arguments clock {Store} _.
Arguments console {Store} _.
Arguments sent {Store} _.
Arguments db_calls {Store} _.
Arguments run {Store} engine db {A} p w.
Arguments answer {Store} engine db p w.
Arguments world_after {Store} engine db p w.

(** *** The MongoDB collections

    The two collections as the handlers use them: documents are kept in
    insertion order; every call fails while the connection is down. *)
Record Mongoose : Type := mkMongoose {
  connected : bool;
  gameHistories : list value;
  tournaments : list value
}.

Definition docs_of (c : Collection) (m : Mongoose) : list value :=
  match c with
  | GameHistory => gameHistories m
  | Tournament => tournaments m
  end.

Definition with_docs (c : Collection) (ds : list value) (m : Mongoose)
  : Mongoose :=
  match c with
  | GameHistory => mkMongoose (connected m) ds (tournaments m)
  | Tournament => mkMongoose (connected m) (gameHistories m) ds
  end.

(** A filter [{ gameId: g }] selects the documents whose [gameId] is the
    string [g]. *)
Definition matches (filter doc : value) : bool :=
  match field filter "gameId", field doc "gameId" with
  | VStr a, VStr b => String.eqb a b
  | _, _ => false
  end.

(** [$set] of every field of [update]. *)
Definition apply_update (update doc : value) : value :=
  match update, doc with
  | VObj us, VObj fs =>
      VObj (fold_left (fun acc kv => set_key (fst kv) (snd kv) acc) us fs)
  | _, _ => doc
  end.

Fixpoint update_first (filter update : value) (ds : list value)
  : list value :=
  match ds with
  | [] => []
  | d :: rest =>
      if matches filter d then apply_update update d :: rest
      else d :: update_first filter update rest
  end.

Fixpoint delete_first (filter : value) (ds : list value) : list value :=
  match ds with
  | [] => []
  | d :: rest =>
      if matches filter d then rest else d :: delete_first filter rest
  end.

Definition find_first (filter : value) (ds : list value) : value :=
  match find (matches filter) ds with
  | Some d => d
  | None => VNull
  end.

(** The sort key of a document: its numeric field [k]. *)
Definition key_of (k : string) (doc : value) : Z :=
  match field doc k with
  | VNum n => n
  | _ => 0
  end.

(** Descending insertion, after the documents with a key not smaller. *)
Fixpoint insert_desc (k : string) (d : value) (ds : list value)
  : list value :=
  match ds with
  | [] => [d]
  | d' :: rest =>
      if key_of k d' <? key_of k d then d :: d' :: rest
      else d' :: insert_desc k d rest
  end.

Definition sort_desc (k : string) (ds : list value) : list value :=
  fold_right (insert_desc k) [] ds.

(** [.select('-field')] *)
Definition deselect (f : option string) (doc : value) : value :=
  match f, doc with
  | Some k, VObj fs => VObj (remove_key k fs)
  | _, _ => doc
  end.

Definition with_default (k : string) (v : value) (doc : value) : value :=
  match doc with
  | VObj fs => if nullish (assoc k fs) then VObj (set_key k v fs) else doc
  | _ => doc
  end.

Definition mongoose (now : Z) (op : DbOp) (m : Mongoose)
  : DbResult * Mongoose :=
  if negb (connected m) then (inr "Operation buffering timed out", m)
  else
    match op with
    | Create c doc =>
        let doc' := with_default "createdAt" (VNum now) doc in
        match c with
        | GameHistory =>
            match field doc "gameId" with
            | VStr g =>
                if existsb (matches (VObj [("gameId", VStr g)]))
                     (gameHistories m)
                then (inr "E11000 duplicate key error", m)
                else (inl doc', with_docs c (docs_of c m ++ [doc']) m)
            | _ =>
                (inr "GameHistory validation failed: gameId is required", m)
            end
        | Tournament => (inl doc', with_docs c (docs_of c m ++ [doc']) m)
        end
    | FindOneAndUpdate c filter update =>
        (inl (find_first filter (docs_of c m)),
         with_docs c (update_first filter update (docs_of c m)) m)
    | DeleteOne c filter =>
        (inl (VObj [("deletedCount",
                     VNum (if existsb (matches filter) (docs_of c m)
                           then 1 else 0))]),
         with_docs c (delete_first filter (docs_of c m)) m)
    | FindOne c filter => (inl (find_first filter (docs_of c m)), m)
    | FindSorted c k n sel =>
        (inl (VArr (map (deselect sel) (firstn n (sort_desc k (docs_of c m))))),
         m)
    end.

(** A store whose every call is rejected. *)
Definition mongoose_down : Mongoose := mkMongoose false [] [].

End Gateway.

(* ================================================================== *)
(** ** Turn controller: the [App] component of [client/src/App.js] *)
(* ================================================================== *)

Module Controller.
Import Js Axios.

(** The [useState] cells of [App]. *)
Record AppState : Type := mkApp {
  gameState : value;
  gameId : value;
  agents : value;
  history : list value;
  loading : bool;
  autoPlay : bool;
  gameOver : bool;
  winner : value;
  agent1Type : string;
  agent2Type : string;
  simRunning : bool;
  simResults : value;
  simGames : Z
}.

Definition initial_app : AppState :=
  mkApp VNull VNull (VArr []) [] false false false VNull
        "expectiminimax" "mcts" false VNull 10.

(** The state setters. *)
Inductive SetState : Type :=
| setGameState (v : value)
| setGameId (v : value)
| setAgents (v : value)
| setHistory (f : list value -> list value)
| setLoading (b : bool)
| setAutoPlay (b : bool)
| setGameOver (b : bool)
| setWinner (v : value)
| setAgent1Type (t : string)
| setAgent2Type (t : string)
| setSimRunning (b : bool)
| setSimResults (v : value)
| setSimGames (n : Z).

Definition apply (u : SetState) (s : AppState) : AppState :=
  match u with
  | setGameState v =>
      mkApp v (gameId s) (agents s) (history s) (loading s) (autoPlay s)
        (gameOver s) (winner s) (agent1Type s) (agent2Type s) (simRunning s)
        (simResults s) (simGames s)
  | setGameId v =>
      mkApp (gameState s) v (agents s) (history s) (loading s) (autoPlay s)
        (gameOver s) (winner s) (agent1Type s) (agent2Type s) (simRunning s)
        (simResults s) (simGames s)
  | setAgents v =>
      mkApp (gameState s) (gameId s) v (history s) (loading s) (autoPlay s)
        (gameOver s) (winner s) (agent1Type s) (agent2Type s) (simRunning s)
        (simResults s) (simGames s)
  | setHistory f =>
      mkApp (gameState s) (gameId s) (agents s) (f (history s)) (loading s)
        (autoPlay s) (gameOver s) (winner s) (agent1Type s) (agent2Type s)
        (simRunning s) (simResults s) (simGames s)
  | setLoading b =>
      mkApp (gameState s) (gameId s) (agents s) (history s) b (autoPlay s)
        (gameOver s) (winner s) (agent1Type s) (agent2Type s) (simRunning s)
        (simResults s) (simGames s)
  | setAutoPlay b =>
      mkApp (gameState s) (gameId s) (agents s) (history s) (loading s) b
        (gameOver s) (winner s) (agent1Type s) (agent2Type s) (simRunning s)
        (simResults s) (simGames s)
  | setGameOver b =>
      mkApp (gameState s) (gameId s) (agents s) (history s) (loading s)
        (autoPlay s) b (winner s) (agent1Type s) (agent2Type s) (simRunning s)
        (simResults s) (simGames s)
  | setWinner v =>
      mkApp (gameState s) (gameId s) (agents s) (history s) (loading s)
        (autoPlay s) (gameOver s) v (agent1Type s) (agent2Type s)
        (simRunning s) (simResults s) (simGames s)
  | setAgent1Type t =>
      mkApp (gameState s) (gameId s) (agents s) (history s) (loading s)
        (autoPlay s) (gameOver s) (winner s) t (agent2Type s) (simRunning s)
        (simResults s) (simGames s)
  | setAgent2Type t =>
      mkApp (gameState s) (gameId s) (agents s) (history s) (loading s)
        (autoPlay s) (gameOver s) (winner s) (agent1Type s) t (simRunning s)
        (simResults s) (simGames s)
  | setSimRunning b =>
      mkApp (gameState s) (gameId s) (agents s) (history s) (loading s)
        (autoPlay s) (gameOver s) (winner s) (agent1Type s) (agent2Type s) b
        (simResults s) (simGames s)
  | setSimResults v =>
      mkApp (gameState s) (gameId s) (agents s) (history s) (loading s)
        (autoPlay s) (gameOver s) (winner s) (agent1Type s) (agent2Type s)
        (simRunning s) v (simGames s)
  | setSimGames n =>
      mkApp (gameState s) (gameId s) (agents s) (history s) (loading s)
        (autoPlay s) (gameOver s) (winner s) (agent1Type s) (agent2Type s)
        (simRunning s) (simResults s) n
  end.

Definition apply_all (us : list SetState) (s : AppState) : AppState :=
  fold_left (fun acc u => apply u acc) us s.

(** The requests of the component, each an [axios.post] under
    [API_BASE]. *)
Inductive ApiCall : Type :=
| NewGameCall (payload : value)              (* /game/new *)
| TurnCall (gameId : value)                  (* /game/${gameId}/turn *)
| FastForwardCall (gameId : value) (turns : Z) (* /game/${gameId}/fast-forward *)
| PlayCall (gameId : value)                  (* /game/${gameId}/play *)
| SimulateCall (payload : value).            (* /simulate *)

Definition is_turn (c : ApiCall) : bool :=
  match c with TurnCall _ => true | _ => false end.

(** The calls whose [async] function brackets the request with
    [setLoading(true)] ... [setLoading(false)]. *)
Definition uses_loading (c : ApiCall) : bool :=
  match c with SimulateCall _ => false | _ => true end.

(** What [playTurn] closes over: [useCallback(..., [gameId, gameOver])]. *)
Record Closure : Type := mkClosure {
  c_gameId : value;
  c_gameOver : bool
}.

Definition closure (s : AppState) : Closure :=
  mkClosure (gameId s) (gameOver s).

(** The component with what surrounds its state: the pending
    [setTimeout(playTurn, 500)], the awaited requests, and two records of
    what happened (every request sent, and how many sessions were
    created). *)
Record Machine : Type := mkMachine {
  app : AppState;
  timer : option Closure;
  inflight : list ApiCall;
  issued : list ApiCall;
  sessions : nat;
  alerts : list string
}.

Definition initial : Machine := mkMachine initial_app None [] [] 0 [].

(** *** Rendering and the auto-play effect *)

(** [Object.is] between a value held in state and the argument of a
    setter: an object or array parsed from a response is a fresh
    reference. *)
Definition object_is (old new : value) : bool :=
  match old, new with
  | VUndefined, VUndefined => true
  | VNull, VNull => true
  | VBool a, VBool b => Bool.eqb a b
  | VNum a, VNum b => a =? b
  | VStr a, VStr b => String.eqb a b
  | _, _ => false
  end.

(** Whether [gameId] is the same reference after the setters [us]. *)
Fixpoint gameId_kept (orig : value) (us : list SetState) (kept : bool)
  : bool :=
  match us with
  | [] => kept
  | setGameId v :: rest => gameId_kept orig rest (object_is orig v)
  | _ :: rest => gameId_kept orig rest kept
  end.

(** Whether one of the effect's dependencies
    [[autoPlay, loading, gameOver, playTurn]] differs between the render
    of [s] and the render after [us]; [playTurn] is a new function when
    [gameId] or [gameOver] differ. *)
Definition deps_changed (s : AppState) (us : list SetState) : bool :=
  let s' := apply_all us s in
  negb (Bool.eqb (autoPlay s) (autoPlay s'))
  || negb (Bool.eqb (loading s) (loading s'))
  || negb (Bool.eqb (gameOver s) (gameOver s'))
  || negb (gameId_kept (gameId s) us true).

(** The body of the effect:
    [if (autoPlay && !loading && !gameOver) setTimeout(playTurn, 500)]. *)
Definition effect (s : AppState) : option Closure :=
  if autoPlay s && negb (loading s) && negb (gameOver s)
  then Some (closure s)
  else None.

(** One render after the setters [us]: when a dependency changed, the
    cleanup clears the timer and the effect runs again. *)
Definition render (us : list SetState) (st : AppState * option Closure)
  : AppState * option Closure :=
  let (s, t) := st in
  let s' := apply_all us s in
  (s', if deps_changed s us then effect s' else t).

(** Setters called in one event handler are rendered together; setters
    called after an [await] are rendered together when React batches
    them and one by one when it does not. *)
Inductive Batching : Type := Automatic | Legacy.

Definition render_async (b : Batching) (us : list SetState)
  (st : AppState * option Closure) : AppState * option Closure :=
  match b with
  | Automatic => render us st
  | Legacy => fold_left (fun acc u => render [u] acc) us st
  end.

Definition set_view (m : Machine) (st : AppState * option Closure) : Machine :=
  mkMachine (fst st) (snd st) (inflight m) (issued m) (sessions m) (alerts m).

(** Setters of an event handler. *)
Definition act (us : list SetState) (m : Machine) : Machine :=
  set_view m (render us (app m, timer m)).

(** Setters of the continuation of an [await]. *)
Definition act_async (b : Batching) (us : list SetState) (m : Machine)
  : Machine :=
  set_view m (render_async b us (app m, timer m)).

(** Sending a request and suspending at [await]. *)
Definition issue (c : ApiCall) (m : Machine) : Machine :=
  mkMachine (app m) (timer m) (inflight m ++ [c]) (issued m ++ [c])
    (sessions m) (alerts m).

Definition alert (msg : string) (m : Machine) : Machine :=
  mkMachine (app m) (timer m) (inflight m) (issued m) (sessions m)
    (alerts m ++ [msg]).

Definition session_created (m : Machine) : Machine :=
  mkMachine (app m) (timer m) (inflight m) (issued m) (S (sessions m))
    (alerts m).

(** *** The functions of the component

    An [async] function is split at its [await]: the part that runs when
    it is called, and the part that runs when the request settles. *)

Definition start_failed : string :=
  "Failed to start game. Make sure the Python backend is running.".

Definition simulation_failed : string :=
  "Failed to run simulation. Make sure the Python backend is running.".

Definition agent_spec (t : string) : value :=
  VObj [("type", VStr t); ("config", VObj [])].

(** [startNewGame] *)
Definition startNewGame (m : Machine) : Machine :=
  let s := app m in
  issue
    (NewGameCall
       (VObj [("agent1", agent_spec (agent1Type s));
              ("agent2", agent_spec (agent2Type s));
              ("startingCash", VNum 1500);
              ("maxTurns", VNum 200)]))
    (act [setLoading true] m).

Definition startNewGame_resume (b : Batching) (r : AxiosResult) (m : Machine)
  : Machine :=
  match r with
  | inl response =>
      let d := data response in
      if nullish d then
        (* [response.data.gameId] throws *)
        act_async b [setLoading false] (alert start_failed m)
      else
        session_created
          (act_async b
             [setGameId (field d "gameId");
              setGameState (field d "state");
              setAgents (field d "agents");
              setHistory (fun _ => []);
              setGameOver false;
              setWinner VNull;
              setLoading false] m)
  | inr _ => act_async b [setLoading false] (alert start_failed m)
  end.

(** [if (!gameId || gameOver) return;] *)
Definition no_active_game (gameId : value) (gameOver : bool) : bool :=
  negb (truthy gameId) || gameOver.

(** [playTurn], with the [gameId] and [gameOver] it closed over. *)
Definition playTurn (c : Closure) (m : Machine) : Machine :=
  if no_active_game (c_gameId c) (c_gameOver c) then m
  else issue (TurnCall (c_gameId c)) (act [setLoading true] m).

Definition playTurn_resume (b : Batching) (r : AxiosResult) (m : Machine)
  : Machine :=
  match r with
  | inl response =>
      let d := data response in
      if nullish d then
        (* [response.data.state] throws *)
        act_async b [setAutoPlay false; setLoading false] m
      else
        act_async b
          ([setGameState (field d "state")]
           ++ (if truthy (field d "turnInfo")
               then [setHistory (fun prev => prev ++ [field d "turnInfo"])]
               else [])
           ++ (if truthy (field d "gameOver")
               then [setGameOver true;
                     setWinner (field d "winner");
                     setAutoPlay false]
               else [])
           ++ [setLoading false]) m
  | inr _ => act_async b [setAutoPlay false; setLoading false] m
  end.

(** [fastForward(turns)] *)
Definition fastForward (turns : Z) (m : Machine) : Machine :=
  let s := app m in
  if no_active_game (gameId s) (gameOver s) then m
  else issue (FastForwardCall (gameId s) turns) (act [setLoading true] m).

Definition fastForward_resume (b : Batching) (r : AxiosResult) (m : Machine)
  : Machine :=
  match r with
  | inl response =>
      let d := data response in
      if nullish d then act_async b [setLoading false] m
      else
        act_async b
          ([setGameState (field d "state")]
           ++ (if truthy (field d "gameOver")
               then [setGameOver true; setWinner (field d "winner")]
               else [])
           ++ [setLoading false]) m
  | inr _ => act_async b [setLoading false] m
  end.

(** [response.data.history || []]; the engine's [history] is an array of
    turn entries. *)
Definition log_of (v : value) : list value :=
  match or_else v (VArr []) with
  | VArr entries => entries
  | _ => []
  end.

(** [playToEnd] *)
Definition playToEnd (m : Machine) : Machine :=
  let s := app m in
  if no_active_game (gameId s) (gameOver s) then m
  else issue (PlayCall (gameId s)) (act [setLoading true] m).

Definition playToEnd_resume (b : Batching) (r : AxiosResult) (m : Machine)
  : Machine :=
  match r with
  | inl response =>
      let d := data response in
      if nullish d then act_async b [setLoading false] m
      else
        act_async b
          [setGameState (field d "state");
           setHistory (fun _ => log_of (field d "history"));
           setGameOver true;
           setWinner (field d "winner");
           setLoading false] m
  | inr _ => act_async b [setLoading false] m
  end.

(** [runSimulation] *)
Definition runSimulation (m : Machine) : Machine :=
  let s := app m in
  issue
    (SimulateCall
       (VObj [("agent1", agent_spec (agent1Type s));
              ("agent2", agent_spec (agent2Type s));
              ("numGames", VNum (simGames s))]))
    (act [setSimRunning true] m).

Definition runSimulation_resume (b : Batching) (r : AxiosResult) (m : Machine)
  : Machine :=
  match r with
  | inl response =>
      act_async b [setSimResults (data response); setSimRunning false] m
  | inr _ => act_async b [setSimRunning false] (alert simulation_failed m)
  end.

(** The [onClick] of the auto-play button: [setAutoPlay(!autoPlay)]. *)
Definition toggleAutoPlay (m : Machine) : Machine :=
  act [setAutoPlay (negb (autoPlay (app m)))] m.

(** The [onClick] of the New Game button of the controls. *)
Definition newGameControl (m : Machine) : Machine :=
  act [setGameId VNull; setGameState VNull; setGameOver false;
       setAutoPlay false] m.

(** The [onNewGame] of the game-over modal. *)
Definition modalNewGame (m : Machine) : Machine :=
  act [setGameId VNull; setGameState VNull; setGameOver false;
       setWinner VNull] m.

(** The [onChange] of the games input:
    [Math.min(100, Math.max(1, parseInt(e.target.value) || 1))];
    [None] is a [NaN] from [parseInt]. *)
Definition changeSimGames (typed : option Z) (m : Machine) : Machine :=
  let n := match typed with
           | Some n => if n =? 0 then 1 else n
           | None => 1
           end in
  act [setSimGames (Z.min 100 (Z.max 1 n))] m.

(** The continuation waiting on a request. *)
Definition resume (b : Batching) (c : ApiCall) (r : AxiosResult) (m : Machine)
  : Machine :=
  match c with
  | NewGameCall _ => startNewGame_resume b r m
  | TurnCall _ => playTurn_resume b r m
  | FastForwardCall _ _ => fastForward_resume b r m
  | PlayCall _ => playToEnd_resume b r m
  | SimulateCall _ => runSimulation_resume b r m
  end.

(** *** What can happen to the component *)

Inductive Event : Type :=
(* the setup view, rendered when [!gameId] *)
| ClickStartGame
| ClickRunSimulation
| SelectAgent1 (t : string)
| SelectAgent2 (t : string)
| ChangeSimGames (typed : option Z)
(* the game view *)
| ClickPlayTurn
| ClickAutoPlay
| ClickSkip10
| ClickPlayToEnd
| ClickNewGame
(* the modal, rendered when [gameOver && winner !== null] *)
| ClickModalNewGame
(* the timeout of the auto-play effect elapses *)
| TimerFires
(* the [i]-th awaited request settles with [r] *)
| Settle (i : nat) (r : AxiosResult).

Definition setup_view (s : AppState) : bool := negb (truthy (gameId s)).
Definition game_view (s : AppState) : bool := truthy (gameId s).

Definition modal_shown (s : AppState) : bool :=
  gameOver s && match winner s with VNull => false | _ => true end.

Definition drop_nth {A : Type} (i : nat) (xs : list A) : list A :=
  firstn i xs ++ skipn (S i) xs.

Definition take_request (i : nat) (m : Machine) : Machine :=
  mkMachine (app m) (timer m) (drop_nth i (inflight m)) (issued m)
    (sessions m) (alerts m).

Definition clear_timer (m : Machine) : Machine :=
  mkMachine (app m) None (inflight m) (issued m) (sessions m) (alerts m).

(** One event; [None] when the control is not rendered or disabled, when
    no timer is pending, or when there is no such request. *)
Definition step (b : Batching) (e : Event) (m : Machine) : option Machine :=
  let s := app m in
  match e with
  | ClickStartGame =>
      if setup_view s && negb (loading s) then Some (startNewGame m) else None
  | ClickRunSimulation =>
      if setup_view s && negb (simRunning s) then Some (runSimulation m)
      else None
  | SelectAgent1 t =>
      if setup_view s then Some (act [setAgent1Type t] m) else None
  | SelectAgent2 t =>
      if setup_view s then Some (act [setAgent2Type t] m) else None
  | ChangeSimGames typed =>
      if setup_view s then Some (changeSimGames typed m) else None
  | ClickPlayTurn =>
      if game_view s && negb (loading s || gameOver s || autoPlay s)
      then Some (playTurn (closure s) m) else None
  | ClickAutoPlay =>
      if game_view s && negb (loading s || gameOver s)
      then Some (toggleAutoPlay m) else None
  | ClickSkip10 =>
      if game_view s && negb (loading s || gameOver s || autoPlay s)
      then Some (fastForward 10 m) else None
  | ClickPlayToEnd =>
      if game_view s && negb (loading s || gameOver s || autoPlay s)
      then Some (playToEnd m) else None
  | ClickNewGame =>
      if game_view s then Some (newGameControl m) else None
  | ClickModalNewGame =>
      if modal_shown s then Some (modalNewGame m) else None
  | TimerFires =>
      match timer m with
      | Some c => Some (playTurn c (clear_timer m))
      | None => None
      end
  | Settle i r =>
      match nth_error (inflight m) i with
      | Some c => Some (resume b c r (take_request i m))
      | None => None
      end
  end.

Fixpoint run (b : Batching) (es : list Event) (m : Machine) : option Machine :=
  match es with
  | [] => Some m
  | e :: rest =>
      match step b e m with
      | Some m' => run b rest m'
      | None => None
      end
  end.

(** The states the component can be in. *)
Definition reachable (b : Batching) (m : Machine) : Prop :=
  exists es, run b es initial = Some m.

(** The requests for a turn among [cs]. *)
Definition turn_requests (cs : list ApiCall) : list ApiCall :=
  filter is_turn cs.

(** *** The game log panel *)

(** [xs.slice(-n)]: the last [n] elements, all of them when there are
    fewer. *)
Definition slice_last {A : Type} (n : nat) (xs : list A) : list A :=
  skipn (List.length xs - n) xs.

(** The entries [GameLog] renders, top to bottom:
    [history.slice(-10).reverse()]. *)
Definition GameLog_entries (history : list value) : list value :=
  rev (slice_last 10 history).

End Controller.

(* ================================================================== *)
(** * Properties *)
(* ================================================================== *)

(** ** The board catalog *)

Section BoardFacts.
Import Board.

(** The tiles of the district of color [c], in board order. *)
Definition district (c : Color) (b : list Tile) : list Tile :=
  filter (fun t => match tile_color t with
                   | Some n => String.eqb n (name c)
                   | None => false
                   end) b.

Lemma generateBoard_runs : exists b, generateBoard = Some b.
Proof. vm_compute. eexists. reflexivity. Qed.

(** C4.  The board has 40 tiles, the tile at position [i] carries
    [index = i], the gamble tiles are exactly the four at 9, 19, 29 and 39
    (the last slot of each edge of ten), and the other 36 are property
    tiles that take the nine colors of the catalog in order, four
    consecutive property tiles per color. *)
Theorem generateBoard_layout :
  exists b,
    generateBoard = Some b /\
    List.length b = 40%nat /\
    map tile_index b = indices /\
    (forall i, (i < 40)%nat ->
       option_map tile_index (nth_error b i) = Some (Z.of_nat i)) /\
    List.length (filter is_gamble b) = 4%nat /\
    map tile_index (filter is_gamble b) = map (fun k => 10 * k + 9) [0; 1; 2; 3] /\
    List.length (properties b) = 36%nat /\
    map tile_type (properties b) = repeat property 36 /\
    map tile_index (properties b)
      = filter (fun i => negb (includes gamblePositions i)) indices /\
    map tile_color (properties b)
      = flat_map (fun c => repeat (Some (name c)) 4) colors /\
    List.length colors = 9%nat.
Proof.
  eexists. split; [vm_compute; reflexivity|].
  repeat (split; [vm_compute; reflexivity|]).
  split.
  - intros i Hi.
    do 40 (destruct i as [|i]; [vm_compute; reflexivity|]).
    lia.
  - repeat (split; [vm_compute; reflexivity|]). reflexivity.
Qed.

(** C5.  In each of the nine districts the four tiles cost
    [basePrice + position * 10] and charge [baseFare + position * 5] for
    position 0, 1, 2, 3, so from one tile of a district to the next the
    price grows by 10 and the fare by 5. *)
Theorem district_pricing :
  exists b,
    generateBoard = Some b /\
    Forall (fun c =>
      map tile_price (district c b)
        = map (fun p => Some (basePrice c + p * 10)) [0; 1; 2; 3] /\
      map tile_fare (district c b)
        = map (fun p => Some (baseFare c + p * 5)) [0; 1; 2; 3] /\
      (forall p t t',
         nth_error (district c b) p = Some t ->
         nth_error (district c b) (S p) = Some t' ->
         exists price fare,
           tile_price t = Some price /\ tile_fare t = Some fare /\
           tile_price t' = Some (price + 10) /\
           tile_fare t' = Some (fare + 5))) colors.
Proof.
  eexists. split; [vm_compute; reflexivity|].
  repeat (apply Forall_cons || apply Forall_nil);
    (split; [vm_compute; reflexivity|split; [vm_compute; reflexivity|]]);
    intros p t t' Ht Ht';
    do 4 (destruct p as [|p];
          [vm_compute in Ht, Ht'; injection Ht as <-; try discriminate Ht';
           injection Ht' as <-; do 2 eexists; repeat split; reflexivity|]);
    destruct p; discriminate Ht.
Qed.

End BoardFacts.

(** ** The board layout *)

Section LayoutFacts.
Import Layout.

Ltac layout_cases :=
  unfold getBoardPosition;
  repeat match goal with
    | |- context [?a <=? ?b] => destruct (Z.leb_spec a b)
    end.

Lemma getBoardPosition_injective i j :
  0 <= i <= 39 -> 0 <= j <= 39 ->
  getBoardPosition i = getBoardPosition j -> i = j.
Proof.
  intros Hi Hj. layout_cases; intros Heq;
    pose proof (f_equal row Heq) as Hr; pose proof (f_equal col Heq) as Hc;
    cbn [row col] in Hr, Hc; lia.
Qed.

Lemma getBoardPosition_on_perimeter i :
  0 <= i <= 39 -> perimeter (getBoardPosition i).
Proof.
  intros Hi. unfold perimeter. layout_cases; cbn [row col]; lia.
Qed.

Lemma getBoardPosition_onto p :
  perimeter p -> exists i, 0 <= i <= 39 /\ getBoardPosition i = p.
Proof.
  destruct p as [r c]. unfold perimeter. cbn [row col]. intros (Hr & Hc & H).
  destruct (Z.eq_dec r 11) as [->|Hr11].
  - exists (11 - c). split; [lia|]. layout_cases; try lia. f_equal; lia.
  - destruct (Z.eq_dec c 1) as [->|Hc1].
    + exists (21 - r). split; [lia|]. layout_cases; try lia; f_equal; lia.
    + destruct (Z.eq_dec r 1) as [->|Hr1].
      * exists (c + 19). split; [lia|]. layout_cases; try lia; f_equal; lia.
      * exists (r + 29). split; [lia|]. layout_cases; try lia; f_equal; lia.
Qed.

(** C6.  [getBoardPosition] is one-to-one on 0..39 and its image is the
    rim of the 11 x 11 grid; 0..10 run along the bottom row with the
    column going down, 11..19 climb the left column, 20..30 run along the
    top row with the column going up, 31..39 descend the right column,
    and 0, 10, 20, 30 sit on the four corners. *)
Theorem getBoardPosition_bijection :
  (forall i j, 0 <= i <= 39 -> 0 <= j <= 39 ->
     getBoardPosition i = getBoardPosition j -> i = j) /\
  (forall i, 0 <= i <= 39 -> perimeter (getBoardPosition i)) /\
  (forall p, perimeter p -> exists i, 0 <= i <= 39 /\ getBoardPosition i = p) /\
  (forall i, 0 <= i <= 10 -> getBoardPosition i = mkPos 11 (11 - i)) /\
  (forall i, 11 <= i <= 19 -> getBoardPosition i = mkPos (21 - i) 1) /\
  (forall i, 20 <= i <= 30 -> getBoardPosition i = mkPos 1 (i - 19)) /\
  (forall i, 31 <= i <= 39 -> getBoardPosition i = mkPos (i - 29) 11) /\
  (forall i, 0 <= i < 10 ->
     col (getBoardPosition (i + 1)) < col (getBoardPosition i)) /\
  (forall i, 11 <= i < 19 ->
     row (getBoardPosition (i + 1)) < row (getBoardPosition i)) /\
  (forall i, 20 <= i < 30 ->
     col (getBoardPosition i) < col (getBoardPosition (i + 1))) /\
  (forall i, 31 <= i < 39 ->
     row (getBoardPosition i) < row (getBoardPosition (i + 1))) /\
  getBoardPosition 0 = mkPos 11 11 /\
  getBoardPosition 10 = mkPos 11 1 /\
  getBoardPosition 20 = mkPos 1 1 /\
  getBoardPosition 30 = mkPos 1 11.
Proof.
  split; [exact getBoardPosition_injective|].
  split; [exact getBoardPosition_on_perimeter|].
  split; [exact getBoardPosition_onto|].
  repeat split; try reflexivity; intros i Hi; layout_cases;
    cbn [row col]; try lia; f_equal; lia.
Qed.

End LayoutFacts.

(** ** The gateway *)

Section RunFacts.
Import Js Axios Gateway.

Variable Store : Type.
Variable engine : Request -> AxiosResult.
Variable db : Z -> DbOp -> Store -> DbResult * Store.

#[local] Abbreviation exec := (run engine db).

Lemma run_bind {A B} (p : Prog A) (f : A -> Prog B) (w : World Store) :
  exec (bind p f) w =
  match exec p w with
  | (inl e, w') => (inl e, w')
  | (inr a, w') => exec (f a) w'
  end.
Proof.
  revert w. induction p as [a|e|r k IH|op k IH|k IH|l k IH]; intros w; simpl.
  - reflexivity.
  - reflexivity.
  - apply IH.
  - destruct (db (clock w) op (store w)) as [res s']. apply IH.
  - apply IH.
  - apply IH.
Qed.

Lemma run_try_catch {A} (p : Prog A) (h : Exn -> Prog A) (w : World Store) :
  exec (try_catch p h) w =
  match exec p w with
  | (inl e, w') => exec (h e) w'
  | (inr a, w') => (inr a, w')
  end.
Proof.
  revert w. induction p as [a|e|r k IH|op k IH|k IH|l k IH]; intros w; simpl.
  - reflexivity.
  - reflexivity.
  - apply IH.
  - destruct (db (clock w) op (store w)) as [res s']. apply IH.
  - apply IH.
  - apply IH.
Qed.

(** A mirroring block [try { ... } catch (dbError) { console.log(...) }]
    always completes normally. *)
Lemma mirror_completes (p : Prog unit) (line : Exn -> list value)
  (w : World Store) :
  fst (exec (try_catch p (fun dbError => console_log (line dbError))) w)
  = inr tt.
Proof.
  rewrite run_try_catch.
  destruct (exec p w) as [[e|[]] w']; reflexivity.
Qed.

(** ... so what follows it is reached, whatever the store did. *)
Lemma after_mirror {A} (p : Prog unit) (line : Exn -> list value) (a : A)
  (w : World Store) :
  fst (exec (try_catch p (fun dbError => console_log (line dbError)) ;;; Ret a) w)
  = inr a.
Proof.
  rewrite run_bind.
  pose proof (mirror_completes p line w) as H.
  destruct (exec (try_catch p _) w) as [[e|[]] w']; simpl in H.
  - discriminate H.
  - reflexivity.
Qed.

End RunFacts.

Section GatewayFacts.
Import Js Axios Gateway.

Variable PYTHON_API : string.

(** What each state-changing handler answers, read off the engine's
    reply alone. *)

Definition new_game_reply (r : AxiosResult) : HttpResponse :=
  match r with
  | inl resp => mkHttp 200 (data resp)
  | inr e =>
      mkHttp 500
        (VObj [("error",
                or_else
                  (opt_field
                     (opt_field (exn_response (AxiosFailure e)) "data") "error")
                  (VStr "Failed to create game"))])
  end.

Definition turn_reply (r : AxiosResult) : HttpResponse :=
  match r with
  | inl resp =>
      if nullish (data resp)
      then mkHttp 500 (VObj [("error", VStr "Failed to play turn")])
      else mkHttp 200 (data resp)
  | inr e =>
      if is_num (opt_field (exn_response (AxiosFailure e)) "status") 404
      then mkHttp 404 (VObj [("error", VStr "Game not found")])
      else mkHttp 500 (VObj [("error", VStr "Failed to play turn")])
  end.

Definition passthrough_reply (failure : string) (r : AxiosResult)
  : HttpResponse :=
  match r with
  | inl resp => mkHttp 200 (data resp)
  | inr _ => mkHttp 500 (VObj [("error", VStr failure)])
  end.

Definition delete_reply (r : AxiosResult) : HttpResponse :=
  match r with
  | inl _ => mkHttp 200 (VObj [("message", VStr "Game deleted")])
  | inr _ => mkHttp 500 (VObj [("error", VStr "Failed to delete game")])
  end.

Definition new_game_request (req : ExpressRequest) : Request :=
  mkRequest POST (PYTHON_API ++ "/api/game/new")%string (body req).

Definition game_request (m : Method) (req : ExpressRequest) (suffix : string)
  (payload : value) : Request :=
  mkRequest m (PYTHON_API ++ "/api/game/" ++ params_gameId req ++ suffix)%string
    payload.

Definition delete_request (req : ExpressRequest) : Request :=
  mkRequest DELETE (PYTHON_API ++ "/api/game/" ++ params_gameId req)%string
    VUndefined.

Definition simulate_request (req : ExpressRequest) : Request :=
  mkRequest POST (PYTHON_API ++ "/api/simulate")%string (body req).

Lemma prop_nullish v k :
  nullish v = true -> exists msg, prop v k = Throw (TypeError msg).
Proof. destruct v; try discriminate; intros _; eexists; reflexivity. Qed.

Lemma prop_defined v k : nullish v = false -> prop v k = Ret (field v k).
Proof. destruct v; try discriminate; reflexivity. Qed.

Section AnyStore.

Variable Store : Type.
Variable engine : Request -> AxiosResult.
Variable db : Z -> DbOp -> Store -> DbResult * Store.
Variable req : ExpressRequest.
Variable w : World Store.

Ltac enter h :=
  unfold answer, h, new_game_request, game_request, delete_request,
    simulate_request;
  rewrite run_try_catch, run_bind;
  unfold await_axios, res_json, res_status_json; cbn [run fst snd];
  match goal with |- context [engine ?r] => destruct (engine r) as [resp|err] end;
  cbn [run fst snd].

Ltac past_mirror :=
  match goal with
  | |- context [run engine db (try_catch ?p (fun e => console_log (@?l e)) ;;; Ret ?a) ?w0] =>
      let H := fresh "H" in
      pose proof (after_mirror Store engine db p l a w0) as H;
      destruct (run engine db (try_catch p _ ;;; Ret a) w0) as [[e|r] w1];
      cbn [fst] in H; [discriminate H|injection H as ->]; reflexivity
  end.

Lemma post_game_new_answer :
  answer engine db (post_game_new PYTHON_API req) w
  = Some (new_game_reply (engine (new_game_request req))).
Proof.
  enter post_game_new; [|reflexivity].
  past_mirror.
Qed.

Lemma post_game_turn_answer :
  answer engine db (post_game_turn PYTHON_API req) w
  = Some (turn_reply (engine (game_request POST req "/turn" VUndefined))).
Proof.
  enter post_game_turn.
  - destruct (nullish (data resp)) eqn:D.
    + destruct (prop_nullish _ "gameOver" D) as [msg ->].
      unfold turn_reply. rewrite D. reflexivity.
    + rewrite (prop_defined _ _ D). cbn [bind].
      unfold turn_reply. rewrite D.
      destruct (truthy _); [past_mirror|reflexivity].
  - unfold turn_reply. destruct (is_num _ 404); reflexivity.
Qed.

Lemma post_game_play_answer :
  answer engine db (post_game_play PYTHON_API req) w
  = Some (passthrough_reply "Failed to play full game"
            (engine (game_request POST req "/play" VUndefined))).
Proof.
  enter post_game_play; [|reflexivity].
  past_mirror.
Qed.

Lemma post_game_fast_forward_answer :
  answer engine db (post_game_fast_forward PYTHON_API req) w
  = Some (passthrough_reply "Failed to fast forward"
            (engine (game_request POST req "/fast-forward" (body req)))).
Proof.
  enter post_game_fast_forward; reflexivity.
Qed.

Lemma delete_game_answer :
  answer engine db (delete_game PYTHON_API req) w
  = Some (delete_reply (engine (delete_request req))).
Proof.
  enter delete_game; [|reflexivity].
  past_mirror.
Qed.

Lemma post_simulate_answer :
  answer engine db (post_simulate PYTHON_API req) w
  = Some (passthrough_reply "Failed to run simulation"
            (engine (simulate_request req))).
Proof.
  enter post_simulate; [|reflexivity].
  past_mirror.
Qed.

(** The engine request and the store calls of [DELETE /api/game/:gameId]. *)
Lemma delete_game_effects :
  let w' := world_after engine db (delete_game PYTHON_API req) w in
  sent w' = sent w ++ [delete_request req] /\
  db_calls w' =
    match engine (delete_request req) with
    | inl _ =>
        db_calls w ++
          [DeleteOne GameHistory (VObj [("gameId", VStr (params_gameId req))])]
    | inr _ => db_calls w
    end.
Proof.
  unfold world_after, delete_game, delete_request.
  rewrite run_try_catch, run_bind.
  unfold await_axios, res_json, res_status_json; cbn [run fst snd].
  destruct (engine _) as [resp|err]; cbn [run fst snd sent db_calls].
  - rewrite run_bind, run_try_catch, run_bind.
    unfold await_db; cbn [run fst snd store clock console sent db_calls].
    destruct (db _ _ _) as [[v|msg] s']; cbn; split; reflexivity.
  - split; reflexivity.
Qed.

End AnyStore.

(** The six state-changing routes. *)
Definition state_changing_routes : list (ExpressRequest -> Prog HttpResponse) :=
  [ post_game_new PYTHON_API;
    post_game_turn PYTHON_API;
    post_game_fast_forward PYTHON_API;
    post_game_play PYTHON_API;
    delete_game PYTHON_API;
    post_simulate PYTHON_API ].

(** C1.  A state-changing route always answers, and its status and body
    are the same whatever the history store does: for the same engine
    reply, any two stores in any two states (one whose write succeeds,
    one whose write is rejected) lead to the same HTTP response. *)
Theorem history_store_never_alters_response :
  forall (engine : Request -> AxiosResult) (req : ExpressRequest)
         (Store1 Store2 : Type)
         (db1 : Z -> DbOp -> Store1 -> DbResult * Store1)
         (db2 : Z -> DbOp -> Store2 -> DbResult * Store2)
         (w1 : World Store1) (w2 : World Store2),
    Forall (fun route =>
              answer engine db1 (route req) w1 = answer engine db2 (route req) w2
              /\ exists r, answer engine db1 (route req) w1 = Some r)
           state_changing_routes.
Proof.
  intros. unfold state_changing_routes.
  repeat apply Forall_cons; try apply Forall_nil.
  - rewrite !post_game_new_answer. eauto.
  - rewrite !post_game_turn_answer. eauto.
  - rewrite !post_game_fast_forward_answer. eauto.
  - rewrite !post_game_play_answer. eauto.
  - rewrite !delete_game_answer. eauto.
  - rewrite !post_simulate_answer. eauto.
Qed.

End GatewayFacts.

(** *** Deleting a session *)

Section DeleteFacts.
Import Js Axios Gateway.

(** The engine's reply is a rejection with status 404. *)
Definition reports_not_found (r : AxiosResult) : bool :=
  match r with
  | inl _ => false
  | inr e =>
      match response e with
      | Some resp => status resp =? 404
      | None => false
      end
  end.

Definition mirror_delete (req : ExpressRequest) : DbOp :=
  DeleteOne GameHistory (VObj [("gameId", VStr (params_gameId req))]).

(** The reading under which the mirrored record is deleted after every
    engine reply other than a 404. *)
Definition mirror_deleted_unless_not_found : Prop :=
  forall (api : string) (engine : Request -> AxiosResult)
         (w : World Mongoose) (req : ExpressRequest),
    reports_not_found (engine (delete_request api req)) = false ->
    In (mirror_delete req)
       (db_calls (world_after engine mongoose (delete_game api req) w)).

(** An engine that rejects every request with a status 500. *)
Definition engine_failing : Request -> AxiosResult :=
  fun _ =>
    inr (mkAxiosError
           (Some (mkAxiosResponse 500 (VObj [("error", VStr "Internal error")])))
           "Request failed with status code 500").

Definition mirrored_g1 : value :=
  VObj [("gameId", VStr "g1"); ("history", VArr []); ("createdAt", VNum 1)].

Definition world_with_g1 : World Mongoose :=
  mkWorld (mkMongoose true [mirrored_g1] []) 2 [] [] [].

Definition delete_g1 : ExpressRequest := mkReq "g1" VUndefined.

Definition local_engine : string := "http://localhost:5002".

(** C7, as stated, fails: when the engine rejects the deletion with a
    status 500 (not a 404), the handler answers 500, never calls
    [GameHistory.deleteOne], and the mirrored record stays. *)
Lemma delete_game_engine_failure_keeps_mirror :
  reports_not_found (engine_failing (delete_request local_engine delete_g1))
    = false /\
  db_calls (world_after engine_failing mongoose
              (delete_game local_engine delete_g1) world_with_g1) = [] /\
  gameHistories (store (world_after engine_failing mongoose
                          (delete_game local_engine delete_g1) world_with_g1))
    = [mirrored_g1] /\
  answer engine_failing mongoose (delete_game local_engine delete_g1)
    world_with_g1
    = Some (mkHttp 500 (VObj [("error", VStr "Failed to delete game")])) /\
  ~ mirror_deleted_unless_not_found.
Proof.
  split; [reflexivity|].
  split; [reflexivity|].
  split; [reflexivity|].
  split; [reflexivity|].
  intros H.
  specialize (H local_engine engine_failing world_with_g1 delete_g1 eq_refl).
  exact H.
Qed.

(** C7, amended.  The deletion is always forwarded to the engine.  When
    the engine accepts it, [GameHistory.deleteOne] is called once for the
    session and the answer is 200 [{message: 'Game deleted'}] whether
    that call succeeds or is rejected.  When the engine call fails, with
    a 404 or with anything else, the store is not called and the answer
    is 500 [{error: 'Failed to delete game'}]. *)
Theorem delete_game_mirrors_after_engine_success :
  forall (api : string) (engine : Request -> AxiosResult) (Store : Type)
         (db : Z -> DbOp -> Store -> DbResult * Store)
         (w : World Store) (req : ExpressRequest),
    let w' := world_after engine db (delete_game api req) w in
    sent w' = sent w ++ [delete_request api req] /\
    match engine (delete_request api req) with
    | inl _ =>
        db_calls w' = db_calls w ++ [mirror_delete req] /\
        answer engine db (delete_game api req) w
          = Some (mkHttp 200 (VObj [("message", VStr "Game deleted")]))
    | inr _ =>
        db_calls w' = db_calls w /\
        answer engine db (delete_game api req) w
          = Some (mkHttp 500 (VObj [("error", VStr "Failed to delete game")]))
    end.
Proof.
  intros api engine Store db w req w'.
  destruct (delete_game_effects api Store engine db req w) as [Hsent Hcalls].
  pose proof (delete_game_answer api Store engine db req w) as Hans.
  fold w' in Hsent, Hcalls.
  split; [exact Hsent|].
  destruct (engine (delete_request api req)) as [resp|err];
    split; assumption.
Qed.

(** With the collections of [mongoose]: after the engine accepted the
    deletion the mirrored record of the session is gone, and during an
    outage the answer is the same. *)
Example delete_g1_accepted :
  let engine := fun _ : Request => inl (mkAxiosResponse 200 VNull) : AxiosResult in
  let w' := world_after engine mongoose (delete_game local_engine delete_g1)
              world_with_g1 in
  gameHistories (store w') = [] /\
  answer engine mongoose (delete_game local_engine delete_g1) world_with_g1
    = Some (mkHttp 200 (VObj [("message", VStr "Game deleted")])) /\
  answer engine mongoose (delete_game local_engine delete_g1)
    (mkWorld mongoose_down 2 [] [] [])
    = Some (mkHttp 200 (VObj [("message", VStr "Game deleted")])) /\
  console (world_after engine mongoose (delete_game local_engine delete_g1)
             (mkWorld mongoose_down 2 [] [] []))
    = [[VStr "Could not delete from MongoDB:";
        VStr "Operation buffering timed out"]].
Proof. repeat split; reflexivity. Qed.

(** Creating a session while the store is down and while it is up: the
    same answer; the outage shows only on the console, the success only
    in the collection. *)
Example new_game_during_outage :
  let engine := fun _ : Request =>
    inl (mkAxiosResponse 200
           (VObj [("gameId", VStr "g2"); ("state", VNull);
                  ("agents", VArr [VStr "a"; VStr "b"])])) : AxiosResult in
  let route := post_game_new local_engine (mkReq "" VNull) in
  let up := mkWorld (mkMongoose true [] []) 5 [] [] [] in
  let down := mkWorld mongoose_down 5 [] [] [] in
  answer engine mongoose route up = answer engine mongoose route down /\
  console (world_after engine mongoose route up) = [] /\
  List.length (gameHistories (store (world_after engine mongoose route up)))
    = 1%nat /\
  console (world_after engine mongoose route down)
    = [[VStr "Could not save to MongoDB:";
        VStr "Operation buffering timed out"]].
Proof. repeat split; reflexivity. Qed.

End DeleteFacts.

(** *** Listing the history *)

Section HistoryFacts.
Import Js Axios Gateway.

(** [a] may come before [b] in a listing by [k], newest first. *)
Definition newer_first (k : string) (a b : value) : Prop :=
  key_of k b <= key_of k a.

Lemma insert_desc_perm k d ds : Permutation (d :: ds) (insert_desc k d ds).
Proof.
  induction ds as [|d' ds IH]; simpl.
  - apply Permutation_refl.
  - destruct (key_of k d' <? key_of k d).
    + apply Permutation_refl.
    + eapply perm_trans; [apply perm_swap|]. apply perm_skip. exact IH.
Qed.

Lemma sort_desc_perm k ds : Permutation ds (sort_desc k ds).
Proof.
  induction ds as [|d ds IH]; simpl.
  - apply perm_nil.
  - eapply perm_trans; [apply perm_skip; exact IH|]. apply insert_desc_perm.
Qed.

Lemma insert_desc_sorted k d ds :
  StronglySorted (newer_first k) ds ->
  StronglySorted (newer_first k) (insert_desc k d ds).
Proof.
  induction 1 as [|d' ds Hs IH Hall]; simpl.
  - constructor; constructor.
  - destruct (Z.ltb_spec (key_of k d') (key_of k d)) as [Hlt|Hge].
    + constructor.
      * constructor; assumption.
      * constructor.
        -- unfold newer_first. lia.
        -- eapply Forall_impl; [|exact Hall].
           unfold newer_first. intros x Hx. lia.
    + constructor; [exact IH|].
      eapply Permutation_Forall; [apply insert_desc_perm|].
      constructor; [unfold newer_first; lia|exact Hall].
Qed.

Lemma sort_desc_sorted k ds : StronglySorted (newer_first k) (sort_desc k ds).
Proof.
  induction ds as [|d ds IH]; simpl.
  - constructor.
  - apply insert_desc_sorted. exact IH.
Qed.

Lemma sorted_prefix {A} (R : A -> A -> Prop) (xs ys : list A) :
  StronglySorted R (xs ++ ys) ->
  StronglySorted R xs /\ Forall (fun x => Forall (R x) ys) xs.
Proof.
  induction xs as [|x xs IH]; simpl; intros H.
  - split; constructor.
  - apply StronglySorted_inv in H. destruct H as [Hs Hall].
    destruct (IH Hs) as [Hxs Hys].
    apply Forall_app in Hall. destruct Hall as [Hx1 Hx2].
    split; constructor; assumption.
Qed.

Lemma assoc_remove_other k k' fs :
  String.eqb k k' = false -> assoc k (remove_key k' fs) = assoc k fs.
Proof.
  intros Hk. induction fs as [|[k0 v] fs IH]; simpl; [reflexivity|].
  destruct (String.eqb k' k0) eqn:E0.
  - apply String.eqb_eq in E0. subst k0. rewrite Hk. exact IH.
  - simpl. rewrite IH. reflexivity.
Qed.

Lemma assoc_remove_same k fs : assoc k (remove_key k fs) = VUndefined.
Proof.
  induction fs as [|[k0 v] fs IH]; simpl; [reflexivity|].
  destruct (String.eqb k k0) eqn:E0; [exact IH|].
  simpl. rewrite E0. exact IH.
Qed.

Lemma deselect_history_omits d :
  field (deselect (Some "history") d) "history" = VUndefined.
Proof.
  destruct d; simpl; try reflexivity. apply assoc_remove_same.
Qed.

Lemma deselect_history_keeps_key d :
  key_of "createdAt" (deselect (Some "history") d) = key_of "createdAt" d.
Proof.
  unfold key_of. destruct d; simpl; try reflexivity.
  rewrite assoc_remove_other; reflexivity.
Qed.

Lemma sorted_map_deselect ds :
  StronglySorted (newer_first "createdAt") ds ->
  StronglySorted (newer_first "createdAt")
    (map (deselect (Some "history")) ds).
Proof.
  induction 1 as [|d ds Hs IH Hall]; cbn [map]; constructor.
  - exact IH.
  - apply Forall_map. eapply Forall_impl; [|exact Hall].
    unfold newer_first. intros x Hx.
    rewrite !deselect_history_keeps_key. exact Hx.
Qed.

Definition history_query : DbOp :=
  FindSorted GameHistory "createdAt" 50 (Some "history").

Definition history_unavailable : HttpResponse :=
  mkHttp 200 (VObj [("games", VArr []);
                    ("error", VStr "Database not available")]).

(** What [GET /api/history] answers, read off the store's reply. *)
Lemma get_history_answer Store engine
  (db : Z -> DbOp -> Store -> DbResult * Store) req (w : World Store) :
  answer engine db (get_history req) w =
  Some match fst (db (clock w) history_query (store w)) with
       | inl games => mkHttp 200 (VObj [("games", games)])
       | inr _ => history_unavailable
       end.
Proof.
  unfold answer, get_history, history_query.
  rewrite run_try_catch, run_bind. unfold await_db. cbn [run].
  destruct (db _ _ _) as [[games|msg] s']; reflexivity.
Qed.

(** C8.  [GET /api/history] answers with status 200 in every case.  When
    the store rejects the query the body is [{games: [], error}] with a
    non-empty [error].  With the collection available, [games] holds the
    stored records, newest [createdAt] first, cut after 50, each without
    its [history] field: no record left out is newer than one listed. *)
Theorem get_history_degrades_and_lists_recent :
  forall (engine : Request -> AxiosResult) (req : ExpressRequest),
    (forall Store (db : Z -> DbOp -> Store -> DbResult * Store) (w : World Store),
       exists r,
         answer engine db (get_history req) w = Some r /\
         http_status r = 200 /\
         (forall msg, fst (db (clock w) history_query (store w)) = inr msg ->
            r = history_unavailable /\
            field (http_body r) "games" = VArr [] /\
            truthy (field (http_body r) "error") = true)) /\
    (forall w : World Mongoose,
       connected (store w) = false ->
       answer engine mongoose (get_history req) w
         = Some history_unavailable) /\
    (forall w : World Mongoose,
       connected (store w) = true ->
       exists listed left_out,
         answer engine mongoose (get_history req) w
           = Some (mkHttp 200
                     (VObj [("games",
                             VArr (map (deselect (Some "history")) listed))])) /\
         Permutation (gameHistories (store w)) (listed ++ left_out) /\
         List.length listed = Nat.min 50 (List.length (gameHistories (store w))) /\
         StronglySorted (newer_first "createdAt")
           (map (deselect (Some "history")) listed) /\
         Forall (fun d => Forall (newer_first "createdAt" d) left_out) listed /\
         Forall (fun g => field g "history" = VUndefined)
           (map (deselect (Some "history")) listed)).
Proof.
  intros engine req. split; [|split].
  - intros Store db w. eexists. split; [apply get_history_answer|].
    destruct (fst (db (clock w) history_query (store w))) as [games|msg0].
    + split; [reflexivity|]. intros msg H. discriminate H.
    + split; [reflexivity|]. intros msg _. repeat split; reflexivity.
  - intros w Hdown. rewrite get_history_answer.
    unfold mongoose. rewrite Hdown. reflexivity.
  - intros w Hup.
    set (sorted := sort_desc "createdAt" (gameHistories (store w))).
    exists (firstn 50 sorted), (skipn 50 sorted).
    assert (Hsorted : StronglySorted (newer_first "createdAt")
                        (firstn 50 sorted ++ skipn 50 sorted)).
    { rewrite firstn_skipn. apply sort_desc_sorted. }
    apply sorted_prefix in Hsorted. destruct Hsorted as [Hlisted Hrest].
    split; [|split; [|split; [|split; [|split]]]].
    + rewrite get_history_answer. unfold mongoose, history_query.
      rewrite Hup. reflexivity.
    + rewrite firstn_skipn. apply sort_desc_perm.
    + rewrite length_firstn. unfold sorted.
      rewrite <- (Permutation_length (sort_desc_perm "createdAt" _)).
      reflexivity.
    + apply sorted_map_deselect. exact Hlisted.
    + exact Hrest.
    + apply Forall_map. apply Forall_forall. intros d _.
      apply deselect_history_omits.
Qed.

End HistoryFacts.

(** ** The turn controller *)

Section ControllerFacts.
Import Js Axios Controller.

(** *** Rendering *)

(** What the auto-play effect depends on. *)
Definition deps (s : AppState) : bool * bool * bool * value :=
  (autoPlay s, loading s, gameOver s, gameId s).

Lemma effect_deps s s' : deps s = deps s' -> effect s = effect s'.
Proof.
  unfold deps, effect, closure. intros H. injection H as -> -> -> ->.
  reflexivity.
Qed.

Lemma object_is_eq a b : object_is a b = true -> a = b.
Proof.
  destruct a, b; simpl; try discriminate; intros H; try reflexivity.
  - apply Bool.eqb_prop in H. congruence.
  - apply Z.eqb_eq in H. congruence.
  - apply String.eqb_eq in H. congruence.
Qed.

Lemma gameId_kept_sound orig us :
  forall s kept,
    (kept = true -> gameId s = orig) ->
    gameId_kept orig us kept = true ->
    gameId (apply_all us s) = orig.
Proof.
  induction us as [|u us IH]; intros s kept Hk H; simpl in *.
  - auto.
  - destruct u; simpl in *;
      try (apply (IH _ kept); [exact Hk|exact H]).
    apply (IH _ (object_is orig v)); [|exact H].
    simpl. intros Ho. symmetry. apply object_is_eq. exact Ho.
Qed.

Lemma deps_unchanged s us :
  deps_changed s us = false -> deps (apply_all us s) = deps s.
Proof.
  unfold deps_changed, deps. intros H.
  apply Bool.orb_false_elim in H. destruct H as [H Hid].
  apply Bool.orb_false_elim in H. destruct H as [H Hover].
  apply Bool.orb_false_elim in H. destruct H as [Hauto Hload].
  apply Bool.negb_false_iff in Hauto, Hload, Hover, Hid.
  apply Bool.eqb_prop in Hauto, Hload, Hover.
  rewrite <- Hauto, <- Hload, <- Hover.
  rewrite (gameId_kept_sound (gameId s) us s true); auto.
Qed.

(** The timer after a render is the one the effect sets for the new
    state, or the old one when no dependency changed. *)
Definition timer_follows (s : AppState) (t : option Closure)
  (s' : AppState) (t' : option Closure) : Prop :=
  t' = effect s' \/ (t' = t /\ deps s' = deps s).

Lemma render_spec us s t :
  fst (render us (s, t)) = apply_all us s /\
  timer_follows s t (apply_all us s) (snd (render us (s, t))).
Proof.
  unfold render, timer_follows. simpl. split; [reflexivity|].
  destruct (deps_changed s us) eqn:E.
  - left. reflexivity.
  - right. split; [reflexivity|]. apply deps_unchanged. exact E.
Qed.

Lemma render_legacy_spec us :
  forall s t,
    let st' := fold_left (fun acc u => render [u] acc) us (s, t) in
    fst st' = apply_all us s /\ timer_follows s t (apply_all us s) (snd st').
Proof.
  induction us as [|u us IH]; intros s t; cbn [fold_left].
  - split; [reflexivity|]. right. split; reflexivity.
  - destruct (render_spec [u] s t) as [Hs Ht].
    destruct (render [u] (s, t)) as [s1 t1] eqn:E. cbn [fst snd] in Hs, Ht.
    change (apply_all [u] s) with (apply u s) in Hs, Ht. subst s1.
    destruct (IH (apply u s) t1) as [Hs' Ht'].
    change (apply_all (u :: us) s) with (apply_all us (apply u s)).
    split; [exact Hs'|].
    unfold timer_follows in *.
    destruct Ht' as [Ht'|[Ht' Hd']]; [left; exact Ht'|].
    destruct Ht as [Ht|[Ht Hd]].
    + left. rewrite Ht', Ht. symmetry. apply effect_deps. exact Hd'.
    + right. split; congruence.
Qed.

Lemma render_async_spec b us s t :
  fst (render_async b us (s, t)) = apply_all us s /\
  timer_follows s t (apply_all us s) (snd (render_async b us (s, t))).
Proof.
  destruct b; simpl.
  - apply render_spec.
  - apply render_legacy_spec.
Qed.

(** *** The machine after the setters of a handler *)

Lemma app_act us m : app (act us m) = apply_all us (app m).
Proof. unfold act, set_view. cbn [app]. apply render_spec. Qed.

Lemma app_act_async b us m : app (act_async b us m) = apply_all us (app m).
Proof. unfold act_async, set_view. cbn [app]. apply render_async_spec. Qed.

Lemma timer_act us m :
  timer_follows (app m) (timer m) (apply_all us (app m)) (timer (act us m)).
Proof. unfold act, set_view. cbn [timer]. apply render_spec. Qed.

Lemma timer_act_async b us m :
  timer_follows (app m) (timer m) (apply_all us (app m))
    (timer (act_async b us m)).
Proof. unfold act_async, set_view. cbn [timer]. apply render_async_spec. Qed.

(** The pending timer, if any, is the one the effect set for the current
    state. *)
Definition timer_ok (m : Machine) : Prop :=
  timer m = None \/ timer m = effect (app m).

Lemma timer_ok_follows m m' :
  timer_ok m ->
  timer_follows (app m) (timer m) (app m') (timer m') ->
  timer_ok m'.
Proof.
  unfold timer_ok, timer_follows. intros Hm [H|[H Hd]].
  - right. exact H.
  - destruct Hm as [Hm|Hm].
    + left. congruence.
    + right. rewrite H, Hm. symmetry. apply effect_deps. exact Hd.
Qed.

Lemma timer_ok_act us m : timer_ok m -> timer_ok (act us m).
Proof.
  intros H. apply (timer_ok_follows m); [exact H|].
  rewrite app_act. apply timer_act.
Qed.

Lemma timer_ok_act_async b us m : timer_ok m -> timer_ok (act_async b us m).
Proof.
  intros H. apply (timer_ok_follows m); [exact H|].
  rewrite app_act_async. apply timer_act_async.
Qed.

Lemma inflight_act us m : inflight (act us m) = inflight m.
Proof. reflexivity. Qed.

Lemma inflight_act_async b us m : inflight (act_async b us m) = inflight m.
Proof. reflexivity. Qed.

Lemma issued_act us m : issued (act us m) = issued m.
Proof. reflexivity. Qed.

Lemma issued_act_async b us m : issued (act_async b us m) = issued m.
Proof. reflexivity. Qed.

Lemma sessions_act us m : sessions (act us m) = sessions m.
Proof. reflexivity. Qed.

Lemma sessions_act_async b us m : sessions (act_async b us m) = sessions m.
Proof. reflexivity. Qed.

(** Unfolds the handlers down to setters applied to the state. *)
Ltac handlers :=
  unfold startNewGame, startNewGame_resume, playTurn, playTurn_resume,
    fastForward, fastForward_resume, playToEnd, playToEnd_resume,
    runSimulation, runSimulation_resume, toggleAutoPlay, newGameControl,
    modalNewGame, changeSimGames, resume in *.

Ltac machine :=
  repeat (progress
    (cbn [app timer inflight issued sessions alerts issue alert
          session_created take_request clear_timer] in *;
     rewrite ?app_act, ?app_act_async, ?inflight_act, ?inflight_act_async,
       ?issued_act, ?issued_act_async, ?sessions_act, ?sessions_act_async
       in *)).

Ltac setters :=
  cbn [apply_all fold_left apply List.app gameState gameId agents history
       loading autoPlay gameOver winner agent1Type agent2Type simRunning
       simResults simGames] in *.

Lemma timer_ok_step b e m m' :
  timer_ok m -> step b e m = Some m' -> timer_ok m'.
Proof.
  intros Hok Hstep.
  assert (Hclear : timer_ok (clear_timer m)) by (left; reflexivity).
  assert (Htake : forall i, timer_ok (take_request i m)) by (intros i; exact Hok).
  assert (Hissue : forall c m0, timer_ok m0 -> timer_ok (issue c m0))
    by (intros c m0 H; exact H).
  assert (Halert : forall a m0, timer_ok m0 -> timer_ok (alert a m0))
    by (intros a m0 H; exact H).
  assert (Hsess : forall m0, timer_ok m0 -> timer_ok (session_created m0))
    by (intros m0 H; exact H).
  destruct e; cbn [step] in Hstep;
    try (match type of Hstep with
         | (if ?g then _ else _) = _ => destruct g; [|discriminate Hstep]
         end;
         injection Hstep as <-; handlers;
         repeat match goal with
           | |- context [if ?c then _ else _] => destruct c
           end;
         auto using timer_ok_act, timer_ok_act_async).
  - destruct (timer m) as [c|]; [|discriminate Hstep].
    injection Hstep as <-. handlers.
    destruct (no_active_game _ _); auto using timer_ok_act.
  - destruct (nth_error (inflight m) i) as [c|]; [|discriminate Hstep].
    injection Hstep as <-.
    destruct c, r; cbn [resume]; handlers;
      repeat match goal with
        | |- context [if ?c then _ else _] => destruct c
        end;
      auto using timer_ok_act, timer_ok_act_async.
Qed.

(** *** One request at a time *)

(** The awaited requests that hold [loading]. *)
Definition busy (m : Machine) : list ApiCall :=
  filter uses_loading (inflight m).

(** [loading] is set exactly while one such request is awaited, and there
    is never a second one. *)
Definition single_flight (m : Machine) : Prop :=
  match busy m with
  | [] => loading (app m) = false
  | [_] => loading (app m) = true
  | _ => False
  end.

(** Auto-play is off once the game is over and while anything but a turn
    is awaited. *)
Definition calm (m : Machine) : Prop :=
  (gameOver (app m) = true -> autoPlay (app m) = false) /\
  (truthy (gameId (app m)) = false -> autoPlay (app m) = false) /\
  Forall (fun c => is_turn c = false -> autoPlay (app m) = false) (busy m).

Lemma filter_drop_nth {A} (f : A -> bool) (xs : list A) :
  forall i c,
    nth_error xs i = Some c ->
    filter f xs
      = filter f (firstn i xs) ++ (if f c then [c] else [])
          ++ filter f (skipn (S i) xs) /\
    filter f (drop_nth i xs)
      = filter f (firstn i xs) ++ filter f (skipn (S i) xs).
Proof.
  unfold drop_nth. intros i c H. split; [|apply filter_app].
  rewrite <- (firstn_skipn i xs) at 1. rewrite filter_app. f_equal.
  revert i H. induction xs as [|x xs IH]; intros [|i] H; simpl in *;
    try discriminate.
  - injection H as ->. destruct (f c); reflexivity.
  - apply IH. exact H.
Qed.

(** Settling a request: either it held [loading] and was the only such
    request, or it was a simulation. *)
Lemma settle_busy m i c :
  single_flight m ->
  nth_error (inflight m) i = Some c ->
  (uses_loading c = true /\ busy m = [c] /\ loading (app m) = true /\
   busy (take_request i m) = []) \/
  (uses_loading c = false /\ busy (take_request i m) = busy m).
Proof.
  unfold single_flight, busy. cbn [inflight take_request]. intros Hsf Hnth.
  destruct (filter_drop_nth uses_loading (inflight m) i c Hnth) as [H1 H2].
  rewrite H2. rewrite H1 in Hsf |- *.
  destruct (uses_loading c).
  - left.
    destruct (filter uses_loading (firstn i (inflight m))) as [|x xs];
      destruct (filter uses_loading (skipn (S i) (inflight m))) as [|y ys];
      simpl in *; try contradiction; try (destruct xs; contradiction).
    auto.
  - right. split; [reflexivity|]. simpl. reflexivity.
Qed.

Lemma idle_when_not_loading m :
  single_flight m -> loading (app m) = false -> busy m = [].
Proof.
  unfold single_flight. intros H Hl.
  destruct (busy m) as [|x [|y l]]; [reflexivity|congruence|contradiction].
Qed.

Lemma busy_issue c m :
  busy (issue c m) = busy m ++ (if uses_loading c then [c] else []).
Proof. unfold busy. cbn [inflight issue]. apply filter_app. Qed.

Lemma busy_act us m : busy (act us m) = busy m.
Proof. reflexivity. Qed.

Lemma busy_act_async b us m : busy (act_async b us m) = busy m.
Proof. reflexivity. Qed.

Lemma busy_alert a m : busy (alert a m) = busy m.
Proof. reflexivity. Qed.

Lemma busy_session_created m : busy (session_created m) = busy m.
Proof. reflexivity. Qed.

Lemma busy_clear_timer m : busy (clear_timer m) = busy m.
Proof. reflexivity. Qed.

Ltac busy_calls :=
  repeat (progress
    (rewrite ?busy_issue, ?busy_act, ?busy_act_async, ?busy_alert,
       ?busy_session_created, ?busy_clear_timer in *)).

Ltac enabled H :=
  match type of H with
  | (if ?g then _ else _) = _ =>
      let G := fresh "G" in
      destruct g eqn:G; [|discriminate H]; injection H as <-
  end.

Ltac bools :=
  repeat match goal with
    | H : _ && _ = true |- _ => apply Bool.andb_true_iff in H; destruct H
    | H : negb _ = true |- _ => apply Bool.negb_true_iff in H
    | H : negb _ = false |- _ => apply Bool.negb_false_iff in H
    | H : _ || _ = false |- _ => apply Bool.orb_false_elim in H; destruct H
    end.

Ltac branches :=
  repeat match goal with
    | |- context [if ?c then _ else _] => destruct c eqn:?
    end.

Lemma timer_pending m c :
  timer_ok m -> timer m = Some c ->
  autoPlay (app m) = true /\ loading (app m) = false /\
  gameOver (app m) = false /\ c = closure (app m).
Proof.
  unfold timer_ok, effect. intros [H|H] Ht; [congruence|].
  rewrite Ht in H.
  destruct (autoPlay (app m)), (loading (app m)), (gameOver (app m));
    simpl in H; try discriminate H.
  injection H as ->. auto.
Qed.

Ltac control :=
  unfold single_flight, calm; handlers; branches; busy_calls;
  cbn [uses_loading]; machine; setters;
  try match goal with
    | Hs : single_flight ?m0, Hl : loading (app ?m0) = false |- _ =>
        rewrite (idle_when_not_loading m0 Hs Hl) in *
    end;
  try match goal with
    | Hb : busy _ = _ |- _ => rewrite Hb in *
    end;
  cbn [List.app].

Ltac close_control :=
  repeat split; auto; try congruence;
  try (intros; congruence);
  try (repeat constructor; cbn [is_turn]; intros; auto;
       try discriminate; congruence).

Lemma control_step b e m m' :
  timer_ok m /\ single_flight m /\ calm m ->
  step b e m = Some m' ->
  single_flight m' /\ calm m'.
Proof.
  intros [Hok [Hsf [Hover [Hid Hbusy]]]] Hstep.
  destruct e; cbn [step] in Hstep.
  1-11: enabled Hstep; unfold setup_view, game_view, modal_shown in *; bools.
  1-11: pose proof Hsf as Hsf0; unfold single_flight in Hsf0; control;
        try (destruct (busy m) as [|x [|y l]]; try contradiction);
        close_control.
  - (* the timer elapses *)
    destruct (timer m) as [c|] eqn:Ht; [|discriminate Hstep].
    injection Hstep as <-.
    destruct (timer_pending m c Hok Ht) as (Hauto & Hload & Hgo & ->).
    assert (Hidle : single_flight (clear_timer m)) by exact Hsf.
    assert (Hl : loading (app (clear_timer m)) = false) by exact Hload.
    control; cbn [closure c_gameId c_gameOver] in *; machine;
      close_control.
  - (* a request settles *)
    destruct (nth_error (inflight m) i) as [c|] eqn:Hnth; [|discriminate Hstep].
    injection Hstep as <-.
    destruct (settle_busy m i c Hsf Hnth)
      as [(Hu & Hb & Hl & Hb')|(Hu & Hb')].
    + rewrite Hb in Hbusy. apply Forall_inv in Hbusy.
      destruct c, r; try discriminate Hu; cbn [resume is_turn] in *;
        control; rewrite ?Hb' in *; close_control.
    + pose proof Hsf as Hsf0. unfold single_flight in Hsf0.
      destruct c, r; try discriminate Hu; cbn [resume] in *;
        control; rewrite ?Hb' in *;
        (destruct (busy m) as [|x [|y l]]; try contradiction);
        close_control.
Qed.

(** What holds of every state the component can reach. *)
Definition steady (m : Machine) : Prop :=
  timer_ok m /\ single_flight m /\ calm m.

Lemma steady_initial : steady initial.
Proof.
  unfold steady, timer_ok, single_flight, calm. simpl.
  repeat split; auto.
Qed.

Lemma steady_step b e m m' : steady m -> step b e m = Some m' -> steady m'.
Proof.
  intros H Hstep. split.
  - eapply timer_ok_step; [apply H|exact Hstep].
  - eapply control_step; [exact H|exact Hstep].
Qed.

Lemma steady_run b es :
  forall m m', steady m -> run b es m = Some m' -> steady m'.
Proof.
  induction es as [|e es IH]; intros m m' H Hrun; simpl in Hrun.
  - injection Hrun as <-. exact H.
  - destruct (step b e m) as [m1|] eqn:E; [|discriminate Hrun].
    eapply IH; [|exact Hrun]. eapply steady_step; eassumption.
Qed.

Lemma steady_reachable b m : reachable b m -> steady m.
Proof.
  intros [es Hrun]. eapply steady_run; [apply steady_initial|exact Hrun].
Qed.

Lemma turn_requests_busy m :
  incl (turn_requests (inflight m)) (busy m) /\
  (List.length (turn_requests (inflight m)) <= List.length (busy m))%nat.
Proof.
  unfold turn_requests, busy.
  induction (inflight m) as [|c cs [IH1 IH2]]; simpl.
  - split; [apply incl_nil_l|lia].
  - destruct c; simpl; split;
      try (apply incl_cons; [left; reflexivity|]);
      try (apply incl_tl; exact IH1); try exact IH1; simpl; lia.
Qed.

(** C2.  In every state the component can reach, under either batching
    of renders and for any order and delay of the engine's replies, at
    most one turn request is awaited; and while the auto-play timer is
    pending none is, nor any other game request: the next turn is
    scheduled only once the previous reply has been applied. *)
Theorem at_most_one_turn_in_flight :
  forall (b : Batching) (es : list Event) (m : Machine),
    run b es initial = Some m ->
    (List.length (turn_requests (inflight m)) <= 1)%nat /\
    (List.length (busy m) <= 1)%nat /\
    (timer m <> None ->
       turn_requests (inflight m) = [] /\ busy m = [] /\
       autoPlay (app m) = true /\ loading (app m) = false) /\
    (turn_requests (inflight m) <> [] -> loading (app m) = true).
Proof.
  intros b es m Hrun.
  assert (H : steady m) by (apply (steady_reachable b); exists es; exact Hrun).
  destruct H as [Hok [Hsf Hcalm]].
  destruct (turn_requests_busy m) as [Hincl Hlen].
  assert (Hone : (List.length (busy m) <= 1)%nat).
  { unfold single_flight in Hsf.
    destruct (busy m) as [|x [|y l]]; simpl; [lia|lia|contradiction]. }
  split; [lia|]. split; [exact Hone|]. split.
  - intros Ht. destruct (timer m) as [c|] eqn:E; [|congruence].
    destruct (timer_pending m c Hok E) as (Hauto & Hload & _ & _).
    pose proof (idle_when_not_loading m Hsf Hload) as Hidle.
    rewrite Hidle in Hincl.
    split; [|auto].
    destruct (turn_requests (inflight m)) as [|x l]; [reflexivity|].
    exfalso. apply (Hincl x). left. reflexivity.
  - intros Hne. unfold single_flight in Hsf.
    destruct (busy m) as [|x [|y l]]; try contradiction; [|exact Hsf].
    exfalso. apply Hne.
    destruct (turn_requests (inflight m)) as [|z l]; [reflexivity|].
    exfalso. apply (Hincl z). left. reflexivity.
Qed.

(** A session is created with auto-play switched on at once, and the
    timer elapses while the engine is slow: one turn request is awaited,
    no timer is pending, and the timer cannot fire again before the reply. *)
Definition created_g1 : AxiosResult :=
  inl (mkAxiosResponse 200
         (VObj [("gameId", VStr "g1");
                ("state", VObj [("turnCount", VNum 0)]);
                ("agents", VArr [])])).

Definition slow_engine_trace : list Event :=
  [ClickStartGame; Settle 0 created_g1; ClickAutoPlay; TimerFires].

Example slow_engine_run :
  option_map (fun m => (inflight m, timer m, loading (app m)))
    (run Automatic slow_engine_trace initial)
  = Some ([TurnCall (VStr "g1")], None, true) /\
  run Automatic (slow_engine_trace ++ [TimerFires]) initial = None /\
  run Legacy (slow_engine_trace ++ [TimerFires]) initial = None /\
  run Automatic (slow_engine_trace ++ [ClickPlayTurn]) initial = None.
Proof.
  split; [vm_compute; reflexivity|].
  split; [vm_compute; reflexivity|].
  split; vm_compute; reflexivity.
Qed.

Lemma at_most_one_turn_in_flight_witness :
  exists m,
    run Automatic slow_engine_trace initial = Some m /\
    (List.length (turn_requests (inflight m)) <= 1)%nat.
Proof.
  eexists. split; [vm_compute; reflexivity|].
  apply (at_most_one_turn_in_flight Automatic slow_engine_trace).
  vm_compute. reflexivity.
Defined.

(** *** After the game is over *)

(** No turn can be played: the game is over or there is no session. *)
Definition halted (m : Machine) : Prop :=
  gameOver (app m) = true \/ truthy (gameId (app m)) = false.

Lemma halted_no_active_game m :
  halted m -> no_active_game (gameId (app m)) (gameOver (app m)) = true.
Proof.
  unfold halted, no_active_game. intros [H|H]; rewrite H.
  - apply Bool.orb_true_r.
  - reflexivity.
Qed.

Lemma issued_issue c m : issued (issue c m) = issued m ++ [c].
Proof. reflexivity. Qed.

Lemma turn_requests_app xs ys :
  turn_requests (xs ++ ys) = turn_requests xs ++ turn_requests ys.
Proof. apply filter_app. Qed.

Lemma sessions_step b e m m' :
  step b e m = Some m' -> (sessions m <= sessions m')%nat.
Proof.
  intros Hstep. destruct e; cbn [step] in Hstep.
  1-11: enabled Hstep; handlers; branches; machine; lia.
  - destruct (timer m) as [c|]; [|discriminate Hstep].
    injection Hstep as <-. handlers; branches; machine; lia.
  - destruct (nth_error (inflight m) i) as [c|]; [|discriminate Hstep].
    injection Hstep as <-.
    destruct c, r; cbn [resume]; handlers; branches; machine; lia.
Qed.

Lemma sessions_run b es :
  forall m m', run b es m = Some m' -> (sessions m <= sessions m')%nat.
Proof.
  induction es as [|e es IH]; intros m m' Hrun; simpl in Hrun.
  - injection Hrun as <-. lia.
  - destruct (step b e m) as [m1|] eqn:E; [|discriminate Hrun].
    apply sessions_step in E. apply IH in Hrun. lia.
Qed.

Ltac close_halted :=
  unfold halted in *; machine; setters;
  rewrite ?issued_issue, ?turn_requests_app; cbn [turn_requests filter is_turn];
  rewrite ?app_nil_r;
  try (split; [|reflexivity]); try tauto; try (right; reflexivity);
  try (left; reflexivity).

(** While no session is created, a halted controller stays halted and
    sends no turn request. *)
Lemma halted_step b e m m' :
  timer_ok m -> halted m ->
  step b e m = Some m' ->
  sessions m' = sessions m ->
  halted m' /\ turn_requests (issued m') = turn_requests (issued m).
Proof.
  intros Hok Hhalt Hstep Hsess.
  pose proof (halted_no_active_game m Hhalt) as Hguard.
  destruct e; cbn [step] in Hstep.
  12: { (* the timer elapses *)
    destruct (timer m) as [c|] eqn:Ht; [|discriminate Hstep].
    injection Hstep as <-.
    destruct (timer_pending m c Hok Ht) as (_ & _ & _ & ->).
    unfold playTurn. cbn [closure c_gameId c_gameOver].
    rewrite Hguard. close_halted. }
  12: { (* a request settles *)
    destruct (nth_error (inflight m) i) as [c|]; [|discriminate Hstep].
    injection Hstep as <-.
    destruct c, r; cbn [resume] in *; handlers; branches; machine;
      try lia; close_halted. }
  all: enabled Hstep; unfold setup_view, game_view, modal_shown in *; bools.
  all: try (destruct Hhalt; congruence).
  all: handlers; cbn [closure c_gameId c_gameOver] in *; rewrite ?Hguard in *;
       close_halted.
Qed.

Lemma halted_run b es :
  forall m m',
    timer_ok m -> halted m ->
    run b es m = Some m' ->
    sessions m' = sessions m ->
    halted m' /\ timer_ok m' /\
    turn_requests (issued m') = turn_requests (issued m).
Proof.
  induction es as [|e es IH]; intros m m' Hok Hhalt Hrun Hsess; simpl in Hrun.
  - injection Hrun as <-. auto.
  - destruct (step b e m) as [m1|] eqn:E; [|discriminate Hrun].
    pose proof (sessions_step b e m m1 E) as H1.
    pose proof (sessions_run b es m1 m' Hrun) as H2.
    assert (Hs1 : sessions m1 = sessions m) by lia.
    destruct (halted_step b e m m1 Hok Hhalt E Hs1) as [Hh1 Ht1].
    pose proof (timer_ok_step b e m m1 Hok E) as Hok1.
    destruct (IH m1 m' Hok1 Hh1 Hrun) as (Hh & Hok' & Ht); [lia|].
    repeat split; auto. congruence.
Qed.

Lemma halted_playTurn m : halted m -> playTurn (closure (app m)) m = m.
Proof.
  intros H. unfold playTurn. cbn [closure c_gameId c_gameOver].
  rewrite (halted_no_active_game m H). reflexivity.
Qed.

(** The requests that advance a game: step, batch, play to completion. *)
Definition advances (c : ApiCall) : bool :=
  match c with
  | TurnCall _ | FastForwardCall _ _ | PlayCall _ => true
  | NewGameCall _ | SimulateCall _ => false
  end.

Lemma completed_not_nullish d :
  truthy (field d "gameOver") = true -> nullish d = false.
Proof. destruct d; simpl; try discriminate; reflexivity. Qed.

Lemma completed_sets_gameOver b c r d m :
  advances c = true ->
  data r = d ->
  truthy (field d "gameOver") = true ->
  gameOver (app (resume b c (inl r) m)) = true.
Proof.
  intros Hc Hd Hdone. pose proof (completed_not_nullish d Hdone) as Hn.
  destruct c; try discriminate Hc; cbn [resume]; handlers;
    rewrite Hd, Hn, ?Hdone; branches; machine; setters; reflexivity.
Qed.

(** C3.  When the reply to a step, a batch or a play-to-completion
    request carries a truthy [gameOver], the controller sets [gameOver],
    auto-play is off and no timer is left pending.  From then on, and
    until a session creation succeeds, the game stays over or without a
    session, [playTurn] changes nothing and sends nothing, whether
    called from the button or from a timer, and no turn request is
    sent. *)
Theorem completed_response_ends_play :
  forall (b : Batching) (m : Machine) (i : nat) (c : ApiCall)
         (r : AxiosResponse),
    reachable b m ->
    nth_error (inflight m) i = Some c ->
    advances c = true ->
    truthy (field (data r) "gameOver") = true ->
    exists m1,
      step b (Settle i (inl r)) m = Some m1 /\
      gameOver (app m1) = true /\
      autoPlay (app m1) = false /\
      timer m1 = None /\
      forall es m2,
        run b es m1 = Some m2 ->
        sessions m2 = sessions m1 ->
        halted m2 /\
        playTurn (closure (app m2)) m2 = m2 /\
        (forall c', timer m2 = Some c' ->
           playTurn c' (clear_timer m2) = clear_timer m2) /\
        turn_requests (issued m2) = turn_requests (issued m1).
Proof.
  intros b m i c r Hreach Hnth Hc Hdone.
  pose proof (steady_reachable b m Hreach) as Hsteady.
  assert (Hstep : step b (Settle i (inl r)) m
                  = Some (resume b c (inl r) (take_request i m))).
  { cbn [step]. rewrite Hnth. reflexivity. }
  eexists. split; [exact Hstep|].
  destruct (steady_step b _ m _ Hsteady Hstep) as (Hok1 & _ & Hover1 & _).
  pose proof (completed_sets_gameOver b c r (data r) (take_request i m)
                Hc eq_refl Hdone) as Hgo.
  assert (Htimer : timer (resume b c (inl r) (take_request i m)) = None).
  { destruct Hok1 as [H|H]; [exact H|].
    rewrite H. unfold effect. rewrite Hgo.
    rewrite Bool.andb_false_r. reflexivity. }
  split; [exact Hgo|]. split; [exact (Hover1 Hgo)|]. split; [exact Htimer|].
  intros es m2 Hrun Hsess.
  destruct (halted_run b es _ m2 Hok1 (or_introl Hgo) Hrun Hsess)
    as (Hh2 & Hok2 & Hturns).
  split; [exact Hh2|]. split; [apply halted_playTurn; exact Hh2|].
  split; [|exact Hturns].
  intros c' Hc'.
  destruct (timer_pending m2 c' Hok2 Hc') as (_ & _ & _ & ->).
  unfold playTurn. cbn [closure c_gameId c_gameOver].
  rewrite (halted_no_active_game m2 Hh2). reflexivity.
Qed.

(** A session in which the reply to the first step ends the game. *)
Definition step_awaited_trace : list Event :=
  [ClickStartGame; Settle 0 created_g1; ClickPlayTurn].

Definition step_awaited : Machine :=
  Eval vm_compute in
    match run Automatic step_awaited_trace initial with
    | Some m => m
    | None => initial
    end.

Definition game_over_reply : AxiosResponse :=
  mkAxiosResponse 200
    (VObj [("state", VObj [("turnCount", VNum 1)]);
           ("turnInfo", VObj [("turn", VNum 1)]);
           ("gameOver", VBool true);
           ("winner", VNum 0)]).

Lemma completed_response_ends_play_witness :
  exists m1,
    step Automatic (Settle 0 (inl game_over_reply)) step_awaited = Some m1 /\
    gameOver (app m1) = true /\
    autoPlay (app m1) = false /\
    timer m1 = None /\
    forall es m2,
      run Automatic es m1 = Some m2 ->
      sessions m2 = sessions m1 ->
      halted m2 /\
      playTurn (closure (app m2)) m2 = m2 /\
      (forall c', timer m2 = Some c' ->
         playTurn c' (clear_timer m2) = clear_timer m2) /\
      turn_requests (issued m2) = turn_requests (issued m1).
Proof.
  apply (completed_response_ends_play Automatic step_awaited 0
           (TurnCall (VStr "g1")) game_over_reply).
  - exists step_awaited_trace. vm_compute. reflexivity.
  - vm_compute. reflexivity.
  - reflexivity.
  - vm_compute. reflexivity.
Defined.

(** *** Batch operations once the game is over *)

(** C9.  With the game over, or without a session, [fastForward] and
    [playToEnd] return at once: the component, its awaited requests and
    the list of requests sent are left exactly as they were; and their
    buttons cannot be clicked. *)
Theorem batch_operations_noop_when_halted :
  forall (b : Batching) (m : Machine) (turns : Z),
    gameOver (app m) = true \/ truthy (gameId (app m)) = false ->
    fastForward turns m = m /\
    playToEnd m = m /\
    step b ClickSkip10 m = None /\
    step b ClickPlayToEnd m = None.
Proof.
  intros b m turns H.
  pose proof (halted_no_active_game m H) as Hguard.
  unfold fastForward, playToEnd. rewrite Hguard.
  split; [reflexivity|]. split; [reflexivity|].
  cbn [step]. unfold game_view.
  destruct H as [H|H]; rewrite H.
  - rewrite Bool.orb_true_r. cbn [orb negb]. rewrite Bool.andb_false_r.
    split; reflexivity.
  - split; reflexivity.
Qed.

(** The controller after the reply that ended the game. *)
Definition game_over_machine : Machine :=
  Eval vm_compute in
    match step Automatic (Settle 0 (inl game_over_reply)) step_awaited with
    | Some m => m
    | None => initial
    end.

Lemma batch_operations_noop_when_halted_witness :
  (gameOver (app game_over_machine) = true \/
   truthy (gameId (app game_over_machine)) = false) /\
  fastForward 10 game_over_machine = game_over_machine /\
  playToEnd game_over_machine = game_over_machine /\
  step Automatic ClickSkip10 game_over_machine = None /\
  step Automatic ClickPlayToEnd game_over_machine = None.
Proof.
  split; [left; reflexivity|].
  apply (batch_operations_noop_when_halted Automatic game_over_machine 10).
  left. reflexivity.
Defined.

(** *** The New Game control *)



(** The log of a finished session survives New Game and a failed
    creation, and is emptied by a successful one. *)
Example stale_log_after_failed_creation :
  let failure : AxiosResult := inr (mkAxiosError None "Network Error") in
  history (app game_over_machine) = [VObj [("turn", VNum 1)]] /\
  option_map (fun m => (history (app m), gameId (app m)))
    (run Automatic [ClickNewGame; ClickStartGame; Settle 0 failure]
       game_over_machine)
  = Some ([VObj [("turn", VNum 1)]], VNull) /\
  option_map (fun m => (history (app m), gameId (app m)))
    (run Automatic [ClickNewGame; ClickStartGame; Settle 0 created_g1]
       game_over_machine)
  = Some ([], VStr "g1").
Proof.
  split; [vm_compute; reflexivity|].
  split; vm_compute; reflexivity.
Qed.

(** *** Further properties of the controller *)

(** X15.  The game log panel shows the ten most recent entries, newest
    at the top: all entries in reverse when there are at most ten, and
    otherwise the last ten, the entry at line [k] being the one [k]
    places before the end of the log. *)
Theorem GameLog_window :
  forall log : list value,
    List.length (GameLog_entries log) = Nat.min 10 (List.length log) /\
    (exists older,
       log = older ++ rev (GameLog_entries log) /\
       List.length older = (List.length log - 10)%nat) /\
    (forall k, (k < Nat.min 10 (List.length log))%nat ->
       nth_error (GameLog_entries log) k
       = nth_error log (List.length log - S k)) /\
    ((List.length log <= 10)%nat -> GameLog_entries log = rev log).
Proof.
  intros log. unfold GameLog_entries, slice_last.
  assert (Hlen : List.length (skipn (List.length log - 10) log)
                 = Nat.min 10 (List.length log)).
  { rewrite length_skipn. lia. }
  split; [rewrite length_rev; exact Hlen|]. split; [|split].
  - exists (firstn (List.length log - 10) log). split.
    + rewrite rev_involutive. symmetry. apply firstn_skipn.
    + rewrite length_firstn. lia.
  - intros k Hk. rewrite nth_error_rev, Hlen.
    destruct (Nat.ltb_spec k (Nat.min 10 (List.length log))) as [_|H]; [|lia].
    rewrite nth_error_skipn. f_equal. lia.
  - intros Hshort.
    replace (List.length log - 10)%nat with 0%nat by lia. reflexivity.
Qed.

Lemma settle_step b i r m c :
  nth_error (inflight m) i = Some c ->
  step b (Settle i r) m = Some (resume b c r (take_request i m)).
Proof. intros H. cbn [step]. rewrite H. reflexivity. Qed.

(** The turn log after the reply [r] to the request [c]. *)
Definition log_after (c : ApiCall) (r : AxiosResult) (log : list value)
  : list value :=
  match r with
  | inr _ => log
  | inl resp =>
      let d := data resp in
      match c with
      | TurnCall _ =>
          if truthy (field d "turnInfo") then log ++ [field d "turnInfo"]
          else log
      | PlayCall _ => if nullish d then log else log_of (field d "history")
      | NewGameCall _ => if nullish d then log else []
      | FastForwardCall _ _ | SimulateCall _ => log
      end
  end.



(** A reply that could not be used: a rejected request, or a response
    without a body. *)
Definition failed (r : AxiosResult) : bool :=
  match r with
  | inr _ => true
  | inl resp => nullish (data resp)
  end.



(** Auto-play is on and the engine becomes unreachable. *)
Definition auto_play_awaiting : Machine :=
  Eval vm_compute in
    match run Automatic slow_engine_trace initial with
    | Some m => m
    | None => initial
    end.

Definition network_error : AxiosResult :=
  inr (mkAxiosError None "Network Error").


(** The requests of the batch controls. *)
Definition is_batch (c : ApiCall) : bool :=
  match c with
  | FastForwardCall _ _ | PlayCall _ => true
  | _ => false
  end.

(** X18.  A failed fast-forward or play-to-completion changes nothing
    but [loading], which is cleared: the game state, the log, the
    game-over flag, the winner and auto-play are as before, and nothing
    is sent. *)
Theorem failed_batch_changes_nothing :
  forall (b : Batching) (m : Machine) (i : nat) (c : ApiCall) (r : AxiosResult),
    nth_error (inflight m) i = Some c ->
    is_batch c = true ->
    failed r = true ->
    exists m',
      step b (Settle i r) m = Some m' /\
      app m' = apply (setLoading false) (app m) /\
      issued m' = issued m.
Proof.
  intros b m i c r Hnth Hc Hfail.
  eexists. split; [apply settle_step; exact Hnth|].
  destruct c; try discriminate Hc;
    destruct r as [resp|e]; cbn [resume failed] in *; handlers;
    rewrite ?Hfail; machine; split; reflexivity.
Qed.


(** The number of games asked of the engine by a simulation request. *)
Definition games_asked (c : ApiCall) : option Z :=
  match c with
  | SimulateCall p =>
      match field p "numGames" with
      | VNum n => Some n
      | _ => None
      end
  | _ => None
  end.

Definition sim_bounded (m : Machine) : Prop :=
  1 <= simGames (app m) <= 100 /\
  Forall (fun c => match c with
                   | SimulateCall _ =>
                       exists n, games_asked c = Some n /\ 1 <= n <= 100
                   | _ => True
                   end) (issued m).

Lemma sim_bounded_step b e m m' :
  sim_bounded m -> step b e m = Some m' -> sim_bounded m'.
Proof.
  intros [Hrange Hsent] Hstep. unfold sim_bounded.
  destruct e; cbn [step] in Hstep.
  12: { destruct (timer m) as [c|]; [|discriminate Hstep].
        injection Hstep as <-. handlers; branches; machine; setters;
        rewrite ?issued_issue; split; auto.
        apply Forall_app. split; [exact Hsent|]. repeat constructor. }
  12: { destruct (nth_error (inflight m) i) as [c|]; [|discriminate Hstep].
        injection Hstep as <-.
        destruct c, r; cbn [resume]; handlers; branches; machine; setters;
          split; auto. }
  all: enabled Hstep; handlers; branches; machine; setters;
       rewrite ?issued_issue; split; auto; try lia;
       try (apply Forall_app; split; [exact Hsent|]; repeat constructor).
  exists (simGames (app m)). split; [reflexivity|exact Hrange].
Qed.

Lemma sim_bounded_run b es :
  forall m m', sim_bounded m -> run b es m = Some m' -> sim_bounded m'.
Proof.
  induction es as [|e es IH]; intros m m' H Hrun; simpl in Hrun.
  - injection Hrun as <-. exact H.
  - destruct (step b e m) as [m1|] eqn:E; [|discriminate Hrun].
    eapply IH; [|exact Hrun]. eapply sim_bounded_step; eassumption.
Qed.

(** X19.  The number of games of a tournament stays between 1 and 100
    whatever is typed in the input (zero, a negative number, something
    that is not a number, a number above 100), and every simulation
    request sent asks for a number of games in that range. *)
Theorem simulation_size_bounded :
  forall (b : Batching) (es : list Event) (m : Machine),
    run b es initial = Some m ->
    1 <= simGames (app m) <= 100 /\
    (forall c n, In c (issued m) -> games_asked c = Some n -> 1 <= n <= 100).
Proof.
  intros b es m Hrun.
  assert (H : sim_bounded m).
  { apply (sim_bounded_run b es initial m); [|exact Hrun].
    split; [simpl; lia|constructor]. }
  destruct H as [Hrange Hsent]. split; [exact Hrange|].
  intros c n Hin Hn. rewrite Forall_forall in Hsent.
  specialize (Hsent c Hin). destruct c; try discriminate Hn.
  destruct Hsent as (n' & Hn' & Hb). congruence.
Qed.

(** A tournament of 500 games is typed in, then run. *)
Definition oversized_trace : list Event :=
  [ChangeSimGames (Some 500); ClickRunSimulation].

Lemma simulation_size_bounded_witness :
  exists m,
    run Automatic oversized_trace initial = Some m /\
    simGames (app m) = 100 /\
    map games_asked (issued m) = [Some 100] /\
    1 <= simGames (app m) <= 100.
Proof.
  eexists. split; [vm_compute; reflexivity|].
  split; [reflexivity|]. split; [reflexivity|].
  apply (simulation_size_bounded Automatic oversized_trace).
  vm_compute. reflexivity.
Defined.

(** The session a game request is addressed to. *)
Definition addressed_to (c : ApiCall) : option value :=
  match c with
  | TurnCall g | FastForwardCall g _ | PlayCall g => Some g
  | NewGameCall _ | SimulateCall _ => None
  end.

Definition well_addressed (c : ApiCall) : Prop :=
  (forall g, addressed_to c = Some g -> truthy g = true) /\
  (forall g n, c = FastForwardCall g n -> n = 10).

Lemma well_addressed_step b e m m' :
  Forall well_addressed (issued m) ->
  step b e m = Some m' ->
  Forall well_addressed (issued m').
Proof.
  intros Hsent Hstep.
  assert (Hguard : forall g over,
            no_active_game g over = false -> truthy g = true).
  { intros g over H. unfold no_active_game in H.
    apply Bool.orb_false_elim in H. destruct H as [H _].
    apply Bool.negb_false_iff in H. exact H. }
  assert (Hnew : forall c m0,
            issued m0 = issued m -> well_addressed c ->
            Forall well_addressed (issued (issue c m0))).
  { intros c m0 H0 Hc. rewrite issued_issue, H0.
    apply Forall_app. split; [exact Hsent|]. constructor; [exact Hc|constructor]. }
  destruct e; cbn [step] in Hstep.
  12: { destruct (timer m) as [c|]; [|discriminate Hstep].
        injection Hstep as <-. unfold playTurn.
        destruct (no_active_game _ _) eqn:G; [exact Hsent|].
        apply Hnew; [reflexivity|]. split.
        - intros g Hg. injection Hg as <-. exact (Hguard _ _ G).
        - intros g n Hg. discriminate Hg. }
  12: { destruct (nth_error (inflight m) i) as [c|]; [|discriminate Hstep].
        injection Hstep as <-.
        destruct c, r; cbn [resume]; handlers; branches; machine;
          exact Hsent. }
  all: enabled Hstep; handlers;
       cbn [closure c_gameId c_gameOver] in *.
  all: try (destruct (no_active_game _ _) eqn:G0).
  all: try exact Hsent.
  all: apply Hnew; [reflexivity|]; split;
       [ intros g Hg; try discriminate Hg; injection Hg as <-;
         exact (Hguard _ _ G0)
       | intros g n Hg; try discriminate Hg; injection Hg as _ <-;
         reflexivity ].
Qed.

(** X20.  No game request is ever sent without a session: every turn,
    fast-forward and play request the controller sends carries a truthy
    [gameId] (never [null], [undefined] or the empty string), and every
    fast-forward asks for 10 turns. *)
Theorem requests_address_a_session :
  forall (b : Batching) (es : list Event) (m : Machine),
    run b es initial = Some m ->
    forall c, In c (issued m) ->
      (forall g, addressed_to c = Some g -> truthy g = true) /\
      (forall g n, c = FastForwardCall g n -> n = 10).
Proof.
  intros b es m Hrun.
  apply Forall_forall.
  revert Hrun.
  assert (H0 : Forall well_addressed (issued initial)) by constructor.
  revert H0. generalize initial as m0.
  induction es as [|e es IH]; intros m0 H0 Hrun; simpl in Hrun.
  - injection Hrun as <-. exact H0.
  - destruct (step b e m0) as [m1|] eqn:E; [|discriminate Hrun].
    apply (IH m1); [|exact Hrun]. eapply well_addressed_step; eassumption.
Qed.

Lemma requests_address_a_session_witness :
  In (TurnCall (VStr "g1")) (issued auto_play_awaiting) /\
  (forall g, addressed_to (TurnCall (VStr "g1")) = Some g -> truthy g = true) /\
  (forall g n, TurnCall (VStr "g1") = FastForwardCall g n -> n = 10).
Proof.
  split; [right; left; reflexivity|].
  apply (requests_address_a_session Automatic slow_engine_trace
           auto_play_awaiting).
  - vm_compute. reflexivity.
  - right. left. reflexivity.
Defined.

(** X21.  Auto-play is never on without a session or after the game is
    over; and a pending timer always leads to a turn: when it elapses
    exactly one turn request is sent, for the current session, [loading]
    is set and no timer is left. *)
Theorem auto_play_needs_a_live_game :
  forall (b : Batching) (es : list Event) (m : Machine),
    run b es initial = Some m ->
    (autoPlay (app m) = true ->
       truthy (gameId (app m)) = true /\ gameOver (app m) = false) /\
    (timer m <> None ->
       exists m',
         step b TimerFires m = Some m' /\
         inflight m' = inflight m ++ [TurnCall (gameId (app m))] /\
         issued m' = issued m ++ [TurnCall (gameId (app m))] /\
         loading (app m') = true /\
         timer m' = None).
Proof.
  intros b es m Hrun.
  assert (Hsteady : steady m)
    by (apply (steady_reachable b); exists es; exact Hrun).
  destruct Hsteady as (Hok & Hsf & Hover & Hid & _).
  assert (Hlive : autoPlay (app m) = true ->
                  truthy (gameId (app m)) = true /\ gameOver (app m) = false).
  { intros Hauto. split.
    - destruct (truthy (gameId (app m))); [reflexivity|].
      rewrite Hid in Hauto by reflexivity. discriminate Hauto.
    - destruct (gameOver (app m)); [|reflexivity].
      rewrite Hover in Hauto by reflexivity. discriminate Hauto. }
  split; [exact Hlive|].
  intros Ht. destruct (timer m) as [c|] eqn:E; [|congruence].
  destruct (timer_pending m c Hok E) as (Hauto & Hload & Hgo & ->).
  destruct (Hlive Hauto) as [Hg _].
  cbn [step]. rewrite E. eexists. split; [reflexivity|].
  unfold playTurn, no_active_game. cbn [closure c_gameId c_gameOver].
  rewrite Hg, Hgo. cbn [negb orb].
  machine. setters. repeat split; try reflexivity.
  pose proof (timer_act [setLoading true] (clear_timer m)) as Hf.
  unfold timer_follows in Hf. cbn [issue timer] in *.
  destruct Hf as [Hf|[Hf _]]; rewrite Hf; [|reflexivity].
  unfold effect. setters. cbn [app clear_timer]. setters.
  rewrite Bool.andb_false_r. reflexivity.
Qed.

Definition auto_play_trace : list Event :=
  [ClickStartGame; Settle 0 created_g1; ClickAutoPlay].

Lemma auto_play_needs_a_live_game_witness :
  exists m,
    run Automatic auto_play_trace initial = Some m /\
    (autoPlay (app m) = true ->
       truthy (gameId (app m)) = true /\ gameOver (app m) = false) /\
    (timer m <> None ->
       exists m',
         step Automatic TimerFires m = Some m' /\
         inflight m' = inflight m ++ [TurnCall (gameId (app m))] /\
         issued m' = issued m ++ [TurnCall (gameId (app m))] /\
         loading (app m') = true /\
         timer m' = None).
Proof.
  eexists. split; [vm_compute; reflexivity|].
  apply (auto_play_needs_a_live_game Automatic auto_play_trace).
  vm_compute. reflexivity.
Defined.

(** X22.  The reply to a turn of a session the observer has left is
    still applied: after New Game is clicked while a turn is awaited,
    the reply, when it comes, puts the old session's state back on
    display although [gameId] is [null], and a final reply sets
    [gameOver] and the winner there. *)
Theorem stale_turn_reply_is_applied :
  forall (b : Batching) (m : Machine) (i : nat) (g : value)
         (resp : AxiosResponse),
    truthy (gameId (app m)) = true ->
    nth_error (inflight m) i = Some (TurnCall g) ->
    nullish (data resp) = false ->
    exists m',
      run b [ClickNewGame; Settle i (inl resp)] m = Some m' /\
      gameId (app m') = VNull /\
      gameState (app m') = field (data resp) "state" /\
      history (app m')
        = log_after (TurnCall g) (inl resp) (history (app m)) /\
      (truthy (field (data resp) "gameOver") = true ->
         gameOver (app m') = true /\
         winner (app m') = field (data resp) "winner").
Proof.
  intros b m i g resp Hview Hnth Hbody.
  cbn [run step]. unfold game_view. rewrite Hview.
  assert (Hin : inflight (newGameControl m) = inflight m) by reflexivity.
  rewrite Hin, Hnth. eexists. split; [reflexivity|].
  cbn [resume log_after]. handlers. rewrite Hbody.
  destruct (truthy (field (data resp) "turnInfo"));
    destruct (truthy (field (data resp) "gameOver"));
    machine; setters; repeat split; try reflexivity; congruence.
Qed.

Lemma stale_turn_reply_is_applied_witness :
  exists m',
    run Automatic [ClickNewGame; Settle 0 (inl game_over_reply)] step_awaited
      = Some m' /\
    gameId (app m') = VNull /\
    gameState (app m') = field (data game_over_reply) "state" /\
    history (app m')
      = log_after (TurnCall (VStr "g1")) (inl game_over_reply)
          (history (app step_awaited)) /\
    (truthy (field (data game_over_reply) "gameOver") = true ->
       gameOver (app m') = true /\
       winner (app m') = field (data game_over_reply) "winner").
Proof.
  apply (stale_turn_reply_is_applied Automatic step_awaited 0 (VStr "g1")
           game_over_reply); reflexivity.
Defined.

(** X23.  The auto-play button, when it can be clicked, flips
    [autoPlay] and sends nothing: switching auto-play on schedules one
    [playTurn] for the current session, switching it off cancels the
    pending timer, so that no turn follows a pause. *)
Theorem toggle_schedules_or_cancels :
  forall (b : Batching) (m : Machine),
    truthy (gameId (app m)) = true ->
    loading (app m) = false ->
    gameOver (app m) = false ->
    exists m',
      step b ClickAutoPlay m = Some m' /\
      autoPlay (app m') = negb (autoPlay (app m)) /\
      timer m' = (if autoPlay (app m) then None else Some (closure (app m))) /\
      inflight m' = inflight m /\
      issued m' = issued m /\
      (autoPlay (app m) = true -> step b TimerFires m' = None).
Proof.
  intros b m Hview Hload Hgo.
  cbn [step]. unfold game_view. rewrite Hview, Hload, Hgo. cbn [orb negb andb].
  eexists. split; [reflexivity|].
  assert (Ht : timer (toggleAutoPlay m)
               = if autoPlay (app m) then None else Some (closure (app m))).
  { unfold toggleAutoPlay, act, set_view, render. cbn [timer snd].
    unfold deps_changed. setters.
    destruct (autoPlay (app m)) eqn:Hauto; cbn [negb Bool.eqb orb];
      unfold effect, closure; setters; rewrite ?Hload, ?Hgo; reflexivity. }
  unfold toggleAutoPlay in *. machine. setters.
  split; [reflexivity|]. split; [exact Ht|].
  split; [reflexivity|]. split; [reflexivity|].
  intros Hauto. cbn [step]. rewrite Ht, Hauto. reflexivity.
Qed.

(** A session has just been created. *)
Definition game_created : Machine :=
  Eval vm_compute in
    match run Automatic [ClickStartGame; Settle 0 created_g1] initial with
    | Some m => m
    | None => initial
    end.

Lemma toggle_schedules_or_cancels_witness :
  exists m',
    step Automatic ClickAutoPlay game_created = Some m' /\
    autoPlay (app m') = negb (autoPlay (app game_created)) /\
    timer m' = (if autoPlay (app game_created) then None
                else Some (closure (app game_created))) /\
    inflight m' = inflight game_created /\
    issued m' = issued game_created /\
    (autoPlay (app game_created) = true -> step Automatic TimerFires m' = None).
Proof.
  apply (toggle_schedules_or_cancels Automatic game_created); reflexivity.
Defined.


Definition going_on_reply : AxiosResponse :=
  mkAxiosResponse 200
    (VObj [("state", VObj [("turnCount", VNum 1)]);
           ("turnInfo", VObj [("turn", VNum 1)]);
           ("gameOver", VBool false)]).


(** *** Stepping through a game *)

(** A session is shown, nothing is awaited, auto-play is off. *)
Definition idle_session (m : Machine) : Prop :=
  truthy (gameId (app m)) = true /\
  loading (app m) = false /\
  gameOver (app m) = false /\
  autoPlay (app m) = false /\
  inflight m = [].

(** The log entry a turn reply brings, if any. *)
Definition entry_of (resp : AxiosResponse) : list value :=
  if truthy (field (data resp) "turnInfo")
  then [field (data resp) "turnInfo"]
  else [].

(** Clicking Play Turn and receiving [resp]. *)
Definition step_round (resp : AxiosResponse) : list Event :=
  [ClickPlayTurn; Settle 0 (inl resp)].

Lemma run_app b es1 :
  forall es2 m,
    run b (es1 ++ es2) m =
    match run b es1 m with
    | Some m1 => run b es2 m1
    | None => None
    end.
Proof.
  induction es1 as [|e es1 IH]; intros es2 m; simpl; [reflexivity|].
  destruct (step b e m); [apply IH|reflexivity].
Qed.

Lemma one_step_round b resp m :
  idle_session m ->
  truthy (field (data resp) "gameOver") = false ->
  exists m1,
    run b (step_round resp) m = Some m1 /\
    idle_session m1 /\
    gameId (app m1) = gameId (app m) /\
    history (app m1) = history (app m) ++ entry_of resp /\
    issued m1 = issued m ++ [TurnCall (gameId (app m))].
Proof.
  intros (Hview & Hload & Hgo & Hauto & Hnone) Hgoing.
  unfold step_round. cbn [run step]. unfold game_view.
  rewrite Hview, Hload, Hgo, Hauto. cbn [orb negb andb].
  unfold playTurn, no_active_game. cbn [closure c_gameId c_gameOver].
  rewrite Hview, Hgo. cbn [orb negb].
  cbn [inflight issue]. rewrite inflight_act, Hnone. cbn [List.app nth_error].
  eexists. split; [reflexivity|].
  cbn [resume]. unfold playTurn_resume, idle_session, entry_of.
  assert (Hinfo : nullish (data resp) = true ->
                  truthy (field (data resp) "turnInfo") = false).
  { destruct (data resp); try discriminate; reflexivity. }
  destruct (nullish (data resp)) eqn:D.
  - rewrite (Hinfo eq_refl). machine. setters.
    rewrite Hnone, app_nil_r. cbn [drop_nth firstn skipn List.app].
    repeat split; auto.
  - rewrite Hgoing.
    destruct (truthy (field (data resp) "turnInfo"));
      machine; setters; rewrite Hnone; rewrite ?app_nil_r;
      cbn [drop_nth firstn skipn List.app]; repeat split; auto.
Qed.

(** X25.  Stepping through a game: from a session at rest, clicking
    Play Turn and receiving the reply, any number of times while the
    game goes on, always succeeds, sends one turn request per click for
    that session, and leaves the log extended by the [turnInfo] of each
    reply, in order; the controller is at rest again after every
    round. *)
Theorem stepping_builds_the_log :
  forall (b : Batching) (replies : list AxiosResponse) (m : Machine),
    idle_session m ->
    Forall (fun resp => truthy (field (data resp) "gameOver") = false)
      replies ->
    exists m',
      run b (flat_map step_round replies) m = Some m' /\
      idle_session m' /\
      gameId (app m') = gameId (app m) /\
      history (app m') = history (app m) ++ flat_map entry_of replies /\
      issued m'
        = issued m
          ++ repeat (TurnCall (gameId (app m))) (List.length replies).
Proof.
  intros b replies. induction replies as [|resp rs IH]; intros m Hidle Hall.
  - exists m. cbn. rewrite !app_nil_r. auto.
  - apply Forall_cons_iff in Hall. destruct Hall as [Hresp Hrs].
    destruct (one_step_round b resp m Hidle Hresp)
      as (m1 & Hrun1 & Hidle1 & Hid1 & Hlog1 & Hsent1).
    destruct (IH m1 Hidle1 Hrs) as (m' & Hrun & Hidle' & Hid & Hlog & Hsent).
    exists m'. cbn [flat_map]. rewrite run_app, Hrun1.
    split; [exact Hrun|]. split; [exact Hidle'|].
    split; [congruence|]. split.
    + rewrite Hlog, Hlog1, <- app_assoc. reflexivity.
    + rewrite Hsent, Hsent1, Hid1, <- app_assoc. reflexivity.
Qed.

Lemma stepping_builds_the_log_witness :
  exists m',
    run Automatic (flat_map step_round [going_on_reply; going_on_reply])
      game_created = Some m' /\
    idle_session m' /\
    gameId (app m') = gameId (app game_created) /\
    history (app m')
      = history (app game_created)
        ++ flat_map entry_of [going_on_reply; going_on_reply] /\
    issued m'
      = issued game_created
        ++ repeat (TurnCall (gameId (app game_created))) 2.
Proof.
  apply (stepping_builds_the_log Automatic [going_on_reply; going_on_reply]
           game_created).
  - repeat split; reflexivity.
  - repeat constructor.
Defined.


(** A fast-forward is awaited and the engine becomes unreachable. *)
Definition skip_awaited : Machine :=
  Eval vm_compute in
    match run Automatic [ClickStartGame; Settle 0 created_g1; ClickSkip10]
            initial with
    | Some m => m
    | None => initial
    end.

Lemma failed_batch_changes_nothing_witness :
  exists m',
    step Automatic (Settle 0 network_error) skip_awaited = Some m' /\
    app m' = apply (setLoading false) (app skip_awaited) /\
    issued m' = issued skip_awaited.
Proof.
  apply (failed_batch_changes_nothing Automatic skip_awaited 0
           (FastForwardCall (VStr "g1") 10) network_error); reflexivity.
Defined.

End ControllerFacts.

(* ================================================================== *)
(** * Further properties *)
(* ================================================================== *)

(** ** The routes that only read *)

Section ReadingRoutes.
Import Js Axios Gateway.

Variable PYTHON_API : string.
Variable Store : Type.
Variable engine : Request -> AxiosResult.
Variable db : Z -> DbOp -> Store -> DbResult * Store.
Variable req : ExpressRequest.
Variable w : World Store.

Definition health_request : Request :=
  mkRequest GET (PYTHON_API ++ "/api/health")%string VUndefined.

Definition agents_request : Request :=
  mkRequest GET (PYTHON_API ++ "/api/agents")%string VUndefined.

Definition state_request : Request :=
  mkRequest GET
    (PYTHON_API ++ "/api/game/" ++ params_gameId req ++ "/state")%string
    VUndefined.

Definition health_body (backend : value) : value :=
  VObj [("status", VStr "healthy");
        ("service", VStr "AI Monopoly Node.js Backend");
        ("pythonBackend", backend)].

Ltac enter_route h :=
  unfold answer, world_after, h, health_request, agents_request, state_request,
    game_request;
  rewrite run_try_catch, run_bind;
  unfold await_axios, res_json, res_status_json; cbn [run fst snd];
  match goal with |- context [engine ?r] => destruct (engine r) as [resp|err] end;
  cbn [run fst snd].

(** X1.  The health route never fails: it answers 200 with
    [status: 'healthy'] whether or not the engine can be reached, and
    reports the engine's own health body or [{status: 'unavailable'}]. *)
Theorem get_health_never_fails :
  answer engine db (get_health PYTHON_API req) w
  = Some (mkHttp 200
            (health_body
               match engine health_request with
               | inl resp => data resp
               | inr _ => VObj [("status", VStr "unavailable")]
               end)).
Proof. enter_route get_health; reflexivity. Qed.

Lemma not_found_status e :
  is_num (opt_field (exn_response (AxiosFailure e)) "status") 404
  = reports_not_found (inr e).
Proof.
  unfold reports_not_found, exn_response.
  destruct (response e) as [r|]; reflexivity.
Qed.

(** X2.  The state route passes the engine's snapshot through with 200,
    answers 404 [Game not found] exactly when the engine rejected the
    request with status 404, and 500 on every other failure (another
    status, or no response at all). *)
Theorem get_game_state_status :
  answer engine db (get_game_state PYTHON_API req) w
  = Some match engine state_request with
         | inl resp => mkHttp 200 (data resp)
         | inr e =>
             if reports_not_found (inr e)
             then mkHttp 404 (VObj [("error", VStr "Game not found")])
             else mkHttp 500 (VObj [("error", VStr "Failed to fetch game state")])
         end.
Proof.
  enter_route get_game_state; [reflexivity|].
  rewrite not_found_status. destruct (reports_not_found _); reflexivity.
Qed.

(** What a run left untouched: the store, the calls made to it and the
    console. *)
Definition quiet (w0 w1 : World Store) : Prop :=
  store w1 = store w0 /\ db_calls w1 = db_calls w0 /\ console w1 = console w0.

(** X3.  The health, agents, state and fast-forward routes send one
    request to the engine and nothing else: no store call, no console
    line.  In particular a fast-forward whose reply ends the game is not
    mirrored. *)
Theorem routes_without_mirror :
  (quiet w (world_after engine db (get_health PYTHON_API req) w) /\
   sent (world_after engine db (get_health PYTHON_API req) w)
     = sent w ++ [health_request]) /\
  (quiet w (world_after engine db (get_agents PYTHON_API req) w) /\
   sent (world_after engine db (get_agents PYTHON_API req) w)
     = sent w ++ [agents_request]) /\
  (quiet w (world_after engine db (get_game_state PYTHON_API req) w) /\
   sent (world_after engine db (get_game_state PYTHON_API req) w)
     = sent w ++ [state_request]) /\
  (quiet w (world_after engine db (post_game_fast_forward PYTHON_API req) w) /\
   sent (world_after engine db (post_game_fast_forward PYTHON_API req) w)
     = sent w
       ++ [game_request PYTHON_API POST req "/fast-forward" (body req)]).
Proof.
  unfold quiet.
  split; [|split; [|split]].
  - enter_route get_health; repeat split; reflexivity.
  - enter_route get_agents; repeat split; reflexivity.
  - enter_route get_game_state;
      try (destruct (is_num _ 404)); repeat split; reflexivity.
  - enter_route post_game_fast_forward; repeat split; reflexivity.
Qed.

End ReadingRoutes.

(** ** Failures of the engine, route by route *)

Section EngineFailures.
Import Js Axios Gateway.

Variable PYTHON_API : string.
Variable Store : Type.
Variable engine : Request -> AxiosResult.
Variable db : Z -> DbOp -> Store -> DbResult * Store.
Variable req : ExpressRequest.
Variable w : World Store.

Lemma turn_reply_not_found e :
  reports_not_found (inr e) = true ->
  turn_reply (inr e) = mkHttp 404 (VObj [("error", VStr "Game not found")]).
Proof.
  intros H. unfold turn_reply. rewrite not_found_status, H. reflexivity.
Qed.

(** X4.  Only the state and turn routes tell the caller that the session
    does not exist: when the engine rejects with status 404 they answer
    404, while the play, fast-forward and delete routes answer 500 with
    their generic message. *)
Theorem not_found_only_for_state_and_turn :
  forall e : AxiosError,
    reports_not_found (inr e) = true ->
    (engine (state_request PYTHON_API req) = inr e ->
     answer engine db (get_game_state PYTHON_API req) w
       = Some (mkHttp 404 (VObj [("error", VStr "Game not found")]))) /\
    (engine (game_request PYTHON_API POST req "/turn" VUndefined) = inr e ->
     answer engine db (post_game_turn PYTHON_API req) w
       = Some (mkHttp 404 (VObj [("error", VStr "Game not found")]))) /\
    (engine (game_request PYTHON_API POST req "/play" VUndefined) = inr e ->
     answer engine db (post_game_play PYTHON_API req) w
       = Some (mkHttp 500 (VObj [("error", VStr "Failed to play full game")]))) /\
    (engine (game_request PYTHON_API POST req "/fast-forward" (body req))
       = inr e ->
     answer engine db (post_game_fast_forward PYTHON_API req) w
       = Some (mkHttp 500 (VObj [("error", VStr "Failed to fast forward")]))) /\
    (engine (delete_request PYTHON_API req) = inr e ->
     answer engine db (delete_game PYTHON_API req) w
       = Some (mkHttp 500 (VObj [("error", VStr "Failed to delete game")]))).
Proof.
  intros e He.
  split; [|split; [|split; [|split]]]; intros Heng.
  - rewrite get_game_state_status, Heng, He. reflexivity.
  - rewrite post_game_turn_answer, Heng. rewrite (turn_reply_not_found e He).
    reflexivity.
  - rewrite post_game_play_answer, Heng. reflexivity.
  - rewrite post_game_fast_forward_answer, Heng. reflexivity.
  - rewrite delete_game_answer, Heng. reflexivity.
Qed.

(** X5.  An engine reply with a [null] or absent body is passed through
    with status 200 by the create, play, fast-forward and simulate
    routes, but makes the turn route answer 500 [Failed to play turn]:
    reading [turnData.gameOver] throws outside the mirroring block. *)
Theorem null_body_fails_only_the_turn_route :
  forall resp : AxiosResponse,
    nullish (data resp) = true ->
    (engine (game_request PYTHON_API POST req "/turn" VUndefined) = inl resp ->
     answer engine db (post_game_turn PYTHON_API req) w
       = Some (mkHttp 500 (VObj [("error", VStr "Failed to play turn")]))) /\
    (engine (new_game_request PYTHON_API req) = inl resp ->
     answer engine db (post_game_new PYTHON_API req) w
       = Some (mkHttp 200 (data resp))) /\
    (engine (game_request PYTHON_API POST req "/play" VUndefined) = inl resp ->
     answer engine db (post_game_play PYTHON_API req) w
       = Some (mkHttp 200 (data resp))) /\
    (engine (game_request PYTHON_API POST req "/fast-forward" (body req))
       = inl resp ->
     answer engine db (post_game_fast_forward PYTHON_API req) w
       = Some (mkHttp 200 (data resp))) /\
    (engine (simulate_request PYTHON_API req) = inl resp ->
     answer engine db (post_simulate PYTHON_API req) w
       = Some (mkHttp 200 (data resp))).
Proof.
  intros resp Hnull.
  split; [|split; [|split; [|split]]]; intros Heng.
  - rewrite post_game_turn_answer, Heng. unfold turn_reply. rewrite Hnull.
    reflexivity.
  - rewrite post_game_new_answer, Heng. reflexivity.
  - rewrite post_game_play_answer, Heng. reflexivity.
  - rewrite post_game_fast_forward_answer, Heng. reflexivity.
  - rewrite post_simulate_answer, Heng. reflexivity.
Qed.

(** The [error] field of what the engine answered, if it answered. *)
Definition engine_message (e : AxiosError) : value :=
  match response e with
  | Some r => opt_field (data r) "error"
  | None => VUndefined
  end.

(** X6.  When session creation fails, the caller gets status 500 and the
    engine's own [error] text if the engine answered with a truthy one;
    on a transport failure, or an answer without such a text, the
    generic [Failed to create game]. *)
Theorem new_game_failure_message :
  forall e : AxiosError,
    engine (new_game_request PYTHON_API req) = inr e ->
    answer engine db (post_game_new PYTHON_API req) w
    = Some (mkHttp 500
              (VObj [("error",
                      if truthy (engine_message e)
                      then engine_message e
                      else VStr "Failed to create game")])).
Proof.
  intros e Heng. rewrite post_game_new_answer, Heng.
  unfold new_game_reply, engine_message, exn_response, or_else.
  destruct (response e) as [r|]; reflexivity.
Qed.

End EngineFailures.

Section EngineFailuresWitnesses.
Import Js Axios Gateway.

Definition engine_not_found : Request -> AxiosResult :=
  fun _ =>
    inr (mkAxiosError
           (Some (mkAxiosResponse 404 (VObj [("error", VStr "Game not found")])))
           "Request failed with status code 404").

Definition not_found_error : AxiosError :=
  mkAxiosError
    (Some (mkAxiosResponse 404 (VObj [("error", VStr "Game not found")])))
    "Request failed with status code 404".

Definition engine_null : Request -> AxiosResult :=
  fun _ => inl (mkAxiosResponse 200 VNull).

Definition engine_rejecting : Request -> AxiosResult :=
  fun _ =>
    inr (mkAxiosError
           (Some (mkAxiosResponse 400 (VObj [("error", VStr "Unknown agent type")])))
           "Request failed with status code 400").

Lemma not_found_only_for_state_and_turn_witness :
  reports_not_found (inr not_found_error) = true /\
  answer engine_not_found mongoose (get_game_state local_engine delete_g1)
    world_with_g1
    = Some (mkHttp 404 (VObj [("error", VStr "Game not found")])) /\
  answer engine_not_found mongoose (post_game_play local_engine delete_g1)
    world_with_g1
    = Some (mkHttp 500 (VObj [("error", VStr "Failed to play full game")])).
Proof.
  split; [reflexivity|].
  pose proof (not_found_only_for_state_and_turn local_engine Mongoose
                engine_not_found mongoose delete_g1 world_with_g1
                not_found_error eq_refl) as (H1 & _ & H3 & _).
  split; [apply H1|apply H3]; reflexivity.
Defined.

Lemma null_body_fails_only_the_turn_route_witness :
  answer engine_null mongoose (post_game_turn local_engine delete_g1)
    world_with_g1
    = Some (mkHttp 500 (VObj [("error", VStr "Failed to play turn")])) /\
  answer engine_null mongoose (post_game_play local_engine delete_g1)
    world_with_g1
    = Some (mkHttp 200 VNull).
Proof.
  pose proof (null_body_fails_only_the_turn_route local_engine Mongoose
                engine_null mongoose delete_g1 world_with_g1
                (mkAxiosResponse 200 VNull) eq_refl) as (H1 & _ & H3 & _).
  split; [apply H1|apply H3]; reflexivity.
Defined.

Lemma new_game_failure_message_witness :
  answer engine_rejecting mongoose (post_game_new local_engine delete_g1)
    world_with_g1
  = Some (mkHttp 500 (VObj [("error", VStr "Unknown agent type")])).
Proof.
  apply (new_game_failure_message local_engine Mongoose engine_rejecting
           mongoose delete_g1 world_with_g1
           (mkAxiosError
              (Some (mkAxiosResponse 400
                       (VObj [("error", VStr "Unknown agent type")])))
              "Request failed with status code 400")).
  reflexivity.
Defined.

End EngineFailuresWitnesses.

(** ** What is written to the history store *)

Section MirrorWrites.
Import Js Axios Gateway.

Variable PYTHON_API : string.
Variable Store : Type.
Variable engine : Request -> AxiosResult.
Variable db : Z -> DbOp -> Store -> DbResult * Store.
Variable req : ExpressRequest.
Variable w : World Store.

Lemma index_defined v i : nullish v = false -> index v i = Ret (item v i).
Proof. destruct v; try discriminate; reflexivity. Qed.


(** The record created for a new session. *)
Definition new_game_doc (d : value) : value :=
  VObj [("gameId", field d "gameId");
        ("agent1", item (field d "agents") 0);
        ("agent2", item (field d "agents") 1);
        ("finalState", field d "state");
        ("history", VArr [])].


(** The update that marks a mirrored session as completed. *)
Definition completion_update (d : value) (now : Z) : DbOp :=
  FindOneAndUpdate GameHistory
    (VObj [("gameId", VStr (params_gameId req))])
    (VObj [("winner", field d "winner");
           ("totalTurns", field (field d "state") "turnCount");
           ("finalState", field d "state");
           ("completedAt", VNum now)]).

(** X8.  The turn route writes to the store only when the engine's
    reply has a truthy [gameOver]: then it makes one
    [findOneAndUpdate] for the session, with the winner, the turn count
    and state of the reply and the current time as [completedAt] (and
    none if the reply lacks a [state]).  A reply that does not end the
    game, and a failed engine call, cause no store call. *)
Theorem turn_mirror_only_when_over :
  db_calls (world_after engine db (post_game_turn PYTHON_API req) w)
  = db_calls w ++
    match engine (game_request PYTHON_API POST req "/turn" VUndefined) with
    | inl resp =>
        if truthy (field (data resp) "gameOver")
           && negb (nullish (field (data resp) "state"))
        then [completion_update (data resp) (clock w)]
        else []
    | inr _ => []
    end.
Proof.
  unfold world_after, post_game_turn, game_request.
  rewrite run_try_catch, run_bind.
  unfold await_axios, res_json, res_status_json; cbn [run fst snd].
  destruct (engine _) as [resp|err]; cbn [run fst snd db_calls].
  2: { destruct (is_num _ 404); cbn; rewrite app_nil_r; reflexivity. }
  destruct (nullish (data resp)) eqn:D.
  - destruct (prop_nullish _ "gameOver" D) as [msg ->].
    assert (Hg : truthy (field (data resp) "gameOver") = false)
      by (destruct (data resp); try discriminate D; reflexivity).
    rewrite Hg. cbn. rewrite app_nil_r. reflexivity.
  - rewrite (prop_defined _ _ D). cbn [bind].
    destruct (truthy (field (data resp) "gameOver")); cbn [andb].
    2: { cbn. rewrite app_nil_r. reflexivity. }
    rewrite run_bind, run_try_catch.
    rewrite !(prop_defined _ _ D). cbn [bind].
    destruct (nullish (field (data resp) "state")) eqn:S0; cbn [negb].
    + destruct (prop_nullish _ "turnCount" S0) as [msg ->].
      cbn. rewrite app_nil_r. reflexivity.
    + rewrite (prop_defined _ _ S0). cbn [bind].
      unfold new_Date, await_db. cbn [bind run].
      destruct (db _ _ _) as [[v|msg] s']; cbn; reflexivity.
Qed.

End MirrorWrites.

(** ** Reading the history store *)

Section StoreReads.
Import Js Axios Gateway.

Definition history_game_query (req : ExpressRequest) : DbOp :=
  FindOne GameHistory (VObj [("gameId", VStr (params_gameId req))]).

Lemma get_history_game_answer Store engine
  (db : Z -> DbOp -> Store -> DbResult * Store) req (w : World Store) :
  answer engine db (get_history_game req) w =
  Some match fst (db (clock w) (history_game_query req) (store w)) with
       | inl game =>
           if truthy game then mkHttp 200 game
           else mkHttp 404 (VObj [("error", VStr "Game not found in history")])
       | inr _ =>
           mkHttp 500 (VObj [("error", VStr "Failed to fetch game history")])
       end.
Proof.
  unfold answer, get_history_game, history_game_query.
  rewrite run_try_catch, run_bind. unfold await_db. cbn [run].
  destruct (db _ _ _) as [[game|msg] s']; cbn [run fst snd].
  - destruct (truthy game); reflexivity.
  - reflexivity.
Qed.

Lemma find_first_none filter ds :
  existsb (matches filter) ds = false -> find_first filter ds = VNull.
Proof.
  unfold find_first. induction ds as [|d ds IH]; simpl; [reflexivity|].
  destruct (matches filter d); [discriminate|]. exact IH.
Qed.

Lemma find_first_some filter ds :
  existsb (matches filter) ds = true ->
  exists d, In d ds /\ matches filter d = true /\ find_first filter ds = d.
Proof.
  unfold find_first. induction ds as [|d ds IH]; simpl; [discriminate|].
  destruct (matches filter d) eqn:E.
  - intros _. exists d. auto.
  - intros H. destruct (IH H) as (d' & Hin & Hm & Hf). exists d'. auto.
Qed.

Lemma matches_truthy filter d : matches filter d = true -> truthy d = true.
Proof.
  unfold matches. destruct (field filter "gameId"); try discriminate.
  destruct d; simpl; try discriminate. reflexivity.
Qed.

(** X9.  The single-record route answers 200 with the record the store
    returns, 404 when the store returns none, and 500 when the store
    rejects the query: unlike the listing routes it does not degrade to
    an empty result.  With the collection available it answers 404 when
    no record carries the requested [gameId], and otherwise the first
    record that does. *)
Theorem get_history_game_status :
  forall (engine : Request -> AxiosResult) (req : ExpressRequest),
    (forall Store (db : Z -> DbOp -> Store -> DbResult * Store)
            (w : World Store),
       answer engine db (get_history_game req) w =
       Some match fst (db (clock w) (history_game_query req) (store w)) with
            | inl game =>
                if truthy game then mkHttp 200 game
                else mkHttp 404
                       (VObj [("error", VStr "Game not found in history")])
            | inr _ =>
                mkHttp 500
                  (VObj [("error", VStr "Failed to fetch game history")])
            end) /\
    (forall w : World Mongoose,
       connected (store w) = false ->
       answer engine mongoose (get_history_game req) w
       = Some (mkHttp 500
                 (VObj [("error", VStr "Failed to fetch game history")]))) /\
    (forall w : World Mongoose,
       connected (store w) = true ->
       if existsb (matches (VObj [("gameId", VStr (params_gameId req))]))
            (gameHistories (store w))
       then exists d,
              In d (gameHistories (store w)) /\
              field d "gameId" = VStr (params_gameId req) /\
              answer engine mongoose (get_history_game req) w
              = Some (mkHttp 200 d)
       else answer engine mongoose (get_history_game req) w
            = Some (mkHttp 404
                      (VObj [("error", VStr "Game not found in history")]))).
Proof.
  intros engine req. split; [|split].
  - intros. apply get_history_game_answer.
  - intros w Hdown. rewrite get_history_game_answer.
    unfold mongoose. rewrite Hdown. reflexivity.
  - intros w Hup.
    destruct (existsb _ _) eqn:E.
    + destruct (find_first_some _ _ E) as (d & Hin & Hm & Hf).
      exists d. split; [exact Hin|]. split.
      * unfold matches in Hm. cbn in Hm.
        destruct (field d "gameId"); try discriminate Hm.
        apply String.eqb_eq in Hm. congruence.
      * rewrite get_history_game_answer. unfold mongoose, history_game_query.
        rewrite Hup. cbn [negb fst docs_of]. rewrite Hf.
        rewrite (matches_truthy _ _ Hm). reflexivity.
    + rewrite get_history_game_answer. unfold mongoose, history_game_query.
      rewrite Hup. cbn [negb fst docs_of].
      rewrite (find_first_none _ _ E). reflexivity.
Qed.

Definition tournaments_query : DbOp :=
  FindSorted Tournament "createdAt" 20 None.

Definition tournaments_unavailable : HttpResponse :=
  mkHttp 200 (VObj [("tournaments", VArr []);
                    ("error", VStr "Database not available")]).

Lemma get_tournaments_answer Store engine
  (db : Z -> DbOp -> Store -> DbResult * Store) req (w : World Store) :
  answer engine db (get_tournaments req) w =
  Some match fst (db (clock w) tournaments_query (store w)) with
       | inl ts => mkHttp 200 (VObj [("tournaments", ts)])
       | inr _ => tournaments_unavailable
       end.
Proof.
  unfold answer, get_tournaments, tournaments_query.
  rewrite run_try_catch, run_bind. unfold await_db. cbn [run].
  destruct (db _ _ _) as [[ts|msg] s']; reflexivity.
Qed.

(** X10.  The tournaments route answers 200 in every case:
    [{tournaments: [], error}] when the store rejects the query, and
    otherwise the stored tournament records in full, newest [createdAt]
    first, cut after 20. *)
Theorem get_tournaments_lists_recent :
  forall (engine : Request -> AxiosResult) (req : ExpressRequest),
    (forall Store (db : Z -> DbOp -> Store -> DbResult * Store)
            (w : World Store),
       exists r,
         answer engine db (get_tournaments req) w = Some r /\
         http_status r = 200 /\
         (forall msg, fst (db (clock w) tournaments_query (store w)) = inr msg ->
            r = tournaments_unavailable)) /\
    (forall w : World Mongoose,
       connected (store w) = true ->
       exists listed left_out,
         answer engine mongoose (get_tournaments req) w
           = Some (mkHttp 200 (VObj [("tournaments", VArr listed)])) /\
         Permutation (tournaments (store w)) (listed ++ left_out) /\
         List.length listed = Nat.min 20 (List.length (tournaments (store w))) /\
         StronglySorted (newer_first "createdAt") listed /\
         Forall (fun d => Forall (newer_first "createdAt" d) left_out) listed).
Proof.
  intros engine req. split.
  - intros Store db w. eexists. split; [apply get_tournaments_answer|].
    destruct (fst (db (clock w) tournaments_query (store w))) as [ts|msg0].
    + split; [reflexivity|]. intros msg H. discriminate H.
    + split; [reflexivity|]. intros msg _. reflexivity.
  - intros w Hup.
    set (sorted := sort_desc "createdAt" (tournaments (store w))).
    exists (firstn 20 sorted), (skipn 20 sorted).
    assert (Hsorted : StronglySorted (newer_first "createdAt")
                        (firstn 20 sorted ++ skipn 20 sorted)).
    { rewrite firstn_skipn. apply sort_desc_sorted. }
    apply sorted_prefix in Hsorted. destruct Hsorted as [Hlisted Hrest].
    split; [|split; [|split; [|split]]].
    + rewrite get_tournaments_answer. unfold mongoose, tournaments_query.
      rewrite Hup. cbn [negb fst docs_of deselect].
      rewrite map_id. reflexivity.
    + rewrite firstn_skipn. apply sort_desc_perm.
    + rewrite length_firstn. unfold sorted.
      rewrite <- (Permutation_length (sort_desc_perm "createdAt" _)).
      reflexivity.
    + exact Hlisted.
    + exact Hrest.
Qed.

End StoreReads.

(** ** A session through the mirror *)

Section MirrorRoundTrip.
Import Js Axios Gateway.

Variable PYTHON_API : string.
Variable engine : Request -> AxiosResult.

Lemma find_first_fresh filter ds d :
  existsb (matches filter) ds = false ->
  matches filter d = true ->
  find_first filter (ds ++ [d]) = d.
Proof.
  unfold find_first. intros Hfresh Hd.
  induction ds as [|d0 ds IH]; simpl in *.
  - rewrite Hd. reflexivity.
  - destruct (matches filter d0); [discriminate|]. apply IH. exact Hfresh.
Qed.

Lemma delete_first_fresh filter ds d :
  existsb (matches filter) ds = false ->
  matches filter d = true ->
  delete_first filter (ds ++ [d]) = ds.
Proof.
  intros Hfresh Hd.
  induction ds as [|d0 ds IH]; simpl in *.
  - rewrite Hd. reflexivity.
  - destruct (matches filter d0); [discriminate|]. f_equal. apply IH.
    exact Hfresh.
Qed.

(** The world after a creation whose reply has a body and agents. *)
Lemma post_game_new_world Store
  (db : Z -> DbOp -> Store -> DbResult * Store) req (w : World Store) resp :
  engine (new_game_request PYTHON_API req) = inl resp ->
  nullish (data resp) = false ->
  nullish (field (data resp) "agents") = false ->
  world_after engine db (post_game_new PYTHON_API req) w
  = let op := Create GameHistory (new_game_doc (data resp)) in
    mkWorld (snd (db (clock w) op (store w))) (clock w)
      (console w ++
         match fst (db (clock w) op (store w)) with
         | inl _ => []
         | inr msg => [[VStr "Could not save to MongoDB:"; VStr msg]]
         end)
      (sent w ++ [new_game_request PYTHON_API req])
      (db_calls w ++ [op]).
Proof.
  intros Heng D A.
  unfold world_after, post_game_new. unfold new_game_request in *.
  rewrite run_try_catch, run_bind.
  unfold await_axios, res_json, res_status_json; cbn [run fst snd].
  rewrite Heng. cbn [run fst snd].
  rewrite run_bind, run_try_catch.
  rewrite !(prop_defined _ _ D). cbn [bind].
  rewrite !(index_defined _ _ A). cbn [bind].
  unfold await_db. cbn [bind run].
  fold (new_game_doc (data resp)).
  destruct (db _ _ _) as [[v|msg] s']; cbn; rewrite ?app_nil_r; reflexivity.
Qed.

Lemma delete_game_store Store
  (db : Z -> DbOp -> Store -> DbResult * Store) req (w : World Store) ok :
  engine (delete_request PYTHON_API req) = inl ok ->
  store (world_after engine db (delete_game PYTHON_API req) w)
  = snd (db (clock w) (mirror_delete req) (store w)).
Proof.
  intros Heng.
  unfold world_after, delete_game, mirror_delete. unfold delete_request in *.
  rewrite run_try_catch, run_bind.
  unfold await_axios, res_json, res_status_json; cbn [run fst snd].
  rewrite Heng. cbn [run fst snd].
  rewrite run_bind, run_try_catch, run_bind.
  unfold await_db. cbn [run fst snd store clock].
  destruct (db _ _ _) as [[v|msg] s']; cbn; reflexivity.
Qed.

(** X11.  With the collections available and no record yet for the id
    the engine assigned: creating a session adds one record, stamped
    with the creation time; the single-record route then returns exactly
    that record; and deleting the session leaves the collection as it
    was before the creation. *)
Theorem mirror_round_trip :
  forall (w : World Mongoose) (create delete_ : ExpressRequest)
         (resp ok : AxiosResponse) (g : string),
    connected (store w) = true ->
    engine (new_game_request PYTHON_API create) = inl resp ->
    field (data resp) "gameId" = VStr g ->
    nullish (field (data resp) "agents") = false ->
    existsb (matches (VObj [("gameId", VStr g)])) (gameHistories (store w))
      = false ->
    params_gameId delete_ = g ->
    engine (delete_request PYTHON_API delete_) = inl ok ->
    let w1 := world_after engine mongoose (post_game_new PYTHON_API create) w in
    let doc := with_default "createdAt" (VNum (clock w))
                 (new_game_doc (data resp)) in
    gameHistories (store w1) = gameHistories (store w) ++ [doc] /\
    field doc "createdAt" = VNum (clock w) /\
    field doc "history" = VArr [] /\
    answer engine mongoose (get_history_game delete_) w1
      = Some (mkHttp 200 doc) /\
    gameHistories
      (store (world_after engine mongoose (delete_game PYTHON_API delete_) w1))
      = gameHistories (store w).
Proof.
  intros w create delete_ resp ok g Hup Heng Hid Hagents Hfresh Hg Hdel w1 doc.
  assert (D : nullish (data resp) = false).
  { destruct (data resp); try discriminate Hid; reflexivity. }
  assert (Hdoc : matches (VObj [("gameId", VStr g)]) doc = true).
  { unfold doc, matches, new_game_doc. cbn. rewrite Hid.
    apply String.eqb_refl. }
  assert (Hw1 : store w1
                = mkMongoose true (gameHistories (store w) ++ [doc])
                    (tournaments (store w)) /\ clock w1 = clock w).
  { unfold w1.
    rewrite (post_game_new_world Mongoose mongoose create w resp Heng D Hagents).
    cbn [store clock]. split; [|reflexivity].
    unfold mongoose. rewrite Hup. cbn [negb snd].
    change (field (new_game_doc (data resp)) "gameId")
      with (field (data resp) "gameId").
    rewrite Hid, Hfresh. cbn [snd with_docs docs_of]. rewrite Hup.
    reflexivity. }
  destruct Hw1 as [Hstore Hclock].
  split; [rewrite Hstore; reflexivity|].
  split; [reflexivity|]. split; [reflexivity|]. split.
  - rewrite get_history_game_answer. unfold history_game_query.
    rewrite Hstore, Hg. unfold mongoose. cbn [connected negb fst docs_of gameHistories].
    rewrite (find_first_fresh _ _ _ Hfresh Hdoc). reflexivity.
  - rewrite (delete_game_store Mongoose mongoose delete_ w1 ok Hdel).
    rewrite Hstore. unfold mirror_delete, mongoose. rewrite Hg.
    cbn [connected negb snd docs_of with_docs gameHistories].
    apply delete_first_fresh; assumption.
Qed.

End MirrorRoundTrip.

Section MirrorRoundTripWitness.
Import Js Axios Gateway.

(** An engine that creates the session [g1] and accepts its deletion. *)
Definition engine_g1 : Request -> AxiosResult :=
  fun r =>
    match method r with
    | DELETE => inl (mkAxiosResponse 200 (VObj [("message", VStr "deleted")]))
    | _ => created_g1
    end.

Definition empty_world : World Mongoose :=
  mkWorld (mkMongoose true [] []) 7 [] [] [].

Lemma mirror_round_trip_witness :
  gameHistories
    (store (world_after engine_g1 mongoose (delete_game local_engine delete_g1)
              (world_after engine_g1 mongoose
                 (post_game_new local_engine (mkReq "" VNull)) empty_world)))
  = [].
Proof.
  apply (mirror_round_trip local_engine engine_g1 empty_world
           (mkReq "" VNull) delete_g1
           (mkAxiosResponse 200
              (VObj [("gameId", VStr "g1");
                     ("state", VObj [("turnCount", VNum 0)]);
                     ("agents", VArr [])]))
           (mkAxiosResponse 200 (VObj [("message", VStr "deleted")]))
           "g1"); reflexivity.
Defined.

End MirrorRoundTripWitness.

(** ** More on the board *)

Section LayoutMore.
Import Layout.

Ltac position_cases :=
  unfold getBoardPosition;
  repeat match goal with
    | |- context [?a <=? ?b] => destruct (Z.leb_spec a b)
    end;
  cbn [row col].

(** X12.  Walking the board one tile at a time moves the marker to a
    neighbouring cell of the grid: consecutive indices, and 39 followed
    by 0, are mapped to cells one step apart along a row or a column. *)
Theorem getBoardPosition_ring :
  forall i, 0 <= i <= 39 ->
    Z.abs (row (getBoardPosition ((i + 1) mod 40)) - row (getBoardPosition i))
    + Z.abs (col (getBoardPosition ((i + 1) mod 40)) - col (getBoardPosition i))
    = 1.
Proof.
  intros i Hi.
  destruct (Z.eq_dec i 39) as [->|Hne].
  - reflexivity.
  - rewrite Z.mod_small by lia. position_cases; lia.
Qed.

Lemma getBoardPosition_ring_witness :
  Z.abs (row (getBoardPosition ((39 + 1) mod 40)) - row (getBoardPosition 39))
  + Z.abs (col (getBoardPosition ((39 + 1) mod 40)) - col (getBoardPosition 39))
  = 1.
Proof. apply (getBoardPosition_ring 39). lia. Defined.

(** X13.  Outside 0..39 the mapping is neither one-to-one nor on the
    board: index 40 falls on the cell of index 0, and every other
    integer, negative or above 40, is placed outside the 11 x 11 grid. *)
Theorem getBoardPosition_out_of_range :
  getBoardPosition 40 = getBoardPosition 0 /\
  (forall i, i < 0 -> 11 < col (getBoardPosition i)) /\
  (forall i, 40 < i -> 11 < row (getBoardPosition i)) /\
  (forall i, i < 0 \/ 40 < i -> ~ perimeter (getBoardPosition i)).
Proof.
  split; [reflexivity|].
  split; [intros i Hi; position_cases; lia|].
  split; [intros i Hi; position_cases; lia|].
  intros i Hi. unfold perimeter. position_cases; lia.
Qed.

End LayoutMore.

Section BoardMore.
Import Board.

Definition tile_name (t : Tile) : string :=
  match t with
  | GambleTile _ n _ => n
  | PropertyTile _ n _ _ _ _ => n
  end.

(** A property tile whose price is twice its fare, or a gamble tile,
    which has neither. *)
Definition fare_is_half_price (t : Tile) : bool :=
  match tile_price t, tile_fare t with
  | Some p, Some f => p =? 2 * f
  | None, None => is_gamble t
  | _, _ => false
  end.

(** X14.  On the generated board every property costs exactly twice its
    fare, gamble tiles carry neither price nor fare, and no two tiles
    share a name. *)
Theorem board_fares_and_names :
  exists b,
    generateBoard = Some b /\
    Forall (fun t => fare_is_half_price t = true) b /\
    NoDup (map tile_name b).
Proof.
  eexists. split; [vm_compute; reflexivity|]. split.
  - apply Forall_forall. intros t Ht.
    repeat (destruct Ht as [<-|Ht]; [vm_compute; reflexivity|]).
    destruct Ht.
  - match goal with |- NoDup ?l =>
      replace l with (nodup string_dec l) by (vm_compute; reflexivity)
    end.
    apply NoDup_nodup.
Qed.

End BoardMore.
